(** * agent.py: reference resolution and payment orchestration

    A shallow embedding of [agent.py] (the voice/text assistant that sits
    in front of the invoicing backend) and the properties of its two core
    parts: [find_invoice_by_spoken_local], which resolves a spoken
    reference to one invoice of a candidate list, and [agent_pay_invoice],
    which sequences the backend calls of one payment attempt.

    Conventions of the embedding.
    - A Python [str] is the list of its code points.  Case mapping and the
      digit class are given on Latin-1 and on the wide white-space
      characters; text with other code points leaves the embedding
      ([Beyond]) where [lower()] meets it.
    - JSON values decoded by [r.json()] / [request.json] are [pyval]s.  A
      [float] is the rational it denotes ([nan] and the infinities are left
      out); [dict]s are association lists in insertion order, looked up at
      the first binding of a key.
    - A computation that may raise is a [res]: a value, an exception, or
      [Beyond] when it needs a part of Python that is not modelled (the
      [repr] of floats and containers, ISO formats other than the two
      plain ones).  [Beyond] is never caught.
    - The calls to [requests] are the nodes of an [io] tree; the backend is
      whatever answers them. *)

From Stdlib Require Import String Ascii ZArith NArith QArith List Bool Lia Lra.
From Stdlib Require Import DecimalString.
Import ListNotations.
Local Open Scope Z_scope.
Set Warnings "-register-all".

(** ** Python strings *)

Definition pystr := list N.

(** A literal of the source, written in ASCII. *)
Definition lit (s : string) : pystr :=
  map N_of_ascii (list_ascii_of_string s).

Arguments lit : simpl never.

Fixpoint str_eqb (a b : pystr) : bool :=
  match a, b with
  | [], [] => true
  | x :: a', y :: b' => N.eqb x y && str_eqb a' b'
  | _, _ => false
  end.

(** [a < b] on [str]: lexicographic on code points. *)
Fixpoint str_ltb (a b : pystr) : bool :=
  match a, b with
  | _, [] => false
  | [], _ :: _ => true
  | x :: a', y :: b' => N.ltb x y || (N.eqb x y && str_ltb a' b')
  end.

Fixpoint startswith (p s : pystr) : bool :=
  match p, s with
  | [], _ => true
  | x :: p', y :: s' => N.eqb x y && startswith p' s'
  | _ :: _, [] => false
  end.

(** [needle in hay] for two [str]. *)
Fixpoint contains (needle hay : pystr) : bool :=
  startswith needle hay ||
  match hay with
  | [] => false
  | _ :: hay' => contains needle hay'
  end.

(** [str.isspace] of one character, which is also what [strip()] removes
    and what [\s] matches in a [str] pattern. *)
Definition isspace (c : N) : bool :=
  ((9 <=? c) && (c <=? 13) || (28 <=? c) && (c <=? 32)
   || (c =? 133) || (c =? 160) || (c =? 5760)
   || (8192 <=? c) && (c <=? 8202) || (c =? 8232) || (c =? 8233)
   || (c =? 8239) || (c =? 8287) || (c =? 12288))%N.

(** [\d] on the modelled characters: the ASCII digits. *)
Definition isdigit (c : N) : bool := ((48 <=? c) && (c <=? 57))%N.

(** [str.lower] of one character: Latin-1 capitals move by 32 (the
    multiplication sign U+00D7 stays), white space is caseless; other wide
    characters are not modelled. *)
Definition lower_char (c : N) : option N :=
  (if (65 <=? c) && (c <=? 90) then Some (c + 32)
   else if (192 <=? c) && (c <=? 222) && negb (c =? 215) then Some (c + 32)
   else if (c <? 256) || isspace c then Some c
   else None)%N.

Fixpoint lstrip (s : pystr) : pystr :=
  match s with
  | c :: s' => if isspace c then lstrip s' else s
  | [] => []
  end.

Definition rstrip (s : pystr) : pystr := rev (lstrip (rev s)).

Definition strip (s : pystr) : pystr := rstrip (lstrip s).

(** ** Values, exceptions, results *)

Inductive pyval : Type :=
| PNone
| PBool (b : bool)
| PInt (n : Z)
| PFloat (q : Q)
| PStr (s : pystr)
| PList (l : list pyval)
| PDict (d : list (pystr * pyval)).

Inductive exn : Type :=
| AttributeError (ty attr : pystr)
| KeyError (key : pystr)
| IndexError
| TypeError
| ValueError
| RequestException (msg : pystr)
| RuntimeError (msg : pystr).

Inductive res (A : Type) : Type :=
| Val (a : A)
| Exc (e : exn)
| Beyond.

Arguments Val {A} a.
Arguments Exc {A} e.
Arguments Beyond {A}.

Definition rbind {A B} (m : res A) (k : A -> res B) : res B :=
  match m with
  | Val a => k a
  | Exc e => Exc e
  | Beyond => Beyond
  end.

Declare Scope res_scope.
Delimit Scope res_scope with res.
Notation "x <- m ;; k" := (rbind m (fun x => k))
  (at level 61, m at next level, right associativity) : res_scope.
Local Open Scope res_scope.

Fixpoint mapM {A B} (f : A -> res B) (l : list A) : res (list B) :=
  match l with
  | [] => Val []
  | x :: l' => y <- f x ;; ys <- mapM f l' ;; Val (y :: ys)
  end.

Fixpoint lower_chars (s : pystr) : res pystr :=
  match s with
  | [] => Val []
  | c :: s' =>
      match lower_char c with
      | Some c' => t <- lower_chars s' ;; Val (c' :: t)
      | None => Beyond
      end
  end.

Definition type_name (v : pyval) : pystr :=
  match v with
  | PNone => lit "NoneType"
  | PBool _ => lit "bool"
  | PInt _ => lit "int"
  | PFloat _ => lit "float"
  | PStr _ => lit "str"
  | PList _ => lit "list"
  | PDict _ => lit "dict"
  end.

(** Truth value of an object, as [if], [not], [and] and [or] take it. *)
Definition truthy (v : pyval) : bool :=
  match v with
  | PNone => false
  | PBool b => b
  | PInt n => negb (n =? 0)
  | PFloat q => negb (Qeq_bool q 0)
  | PStr s => match s with [] => false | _ => true end
  | PList l => match l with [] => false | _ => true end
  | PDict d => match d with [] => false | _ => true end
  end.

(** [a or b]. *)
Definition py_or (a b : pyval) : pyval := if truthy a then a else b.

Fixpoint lookup (k : pystr) (d : list (pystr * pyval)) : option pyval :=
  match d with
  | [] => None
  | (k', v) :: d' => if str_eqb k k' then Some v else lookup k d'
  end.

(** [v.get(k, dflt)]; only a [dict] has the method. *)
Definition py_get (v : pyval) (k : pystr) (dflt : pyval) : res pyval :=
  match v with
  | PDict d => Val (match lookup k d with Some x => x | None => dflt end)
  | _ => Exc (AttributeError (type_name v) (lit "get"))
  end.

(** [v[k]] for a [str] key [k]. *)
Definition py_getitem (v : pyval) (k : pystr) : res pyval :=
  match v with
  | PDict d => match lookup k d with Some x => Val x | None => Exc (KeyError k) end
  | _ => Exc TypeError
  end.

(** [v.lower()]. *)
Definition py_lower (v : pyval) : res pystr :=
  match v with
  | PStr s => lower_chars s
  | _ => Exc (AttributeError (type_name v) (lit "lower"))
  end.

Definition str_of_Z (n : Z) : pystr := lit (NilZero.string_of_int (Z.to_int n)).

(** [str(v)], also what an f-string puts for [{v}]. *)
Definition py_str (v : pyval) : res pystr :=
  match v with
  | PNone => Val (lit "None")
  | PBool true => Val (lit "True")
  | PBool false => Val (lit "False")
  | PInt n => Val (str_of_Z n)
  | PStr s => Val s
  | PFloat _ | PList _ | PDict _ => Beyond
  end.

(** [sid in v] for a [str] [sid]: substring of a [str], element of a
    [list], key of a [dict]. *)
Definition py_contains (sid : pystr) (v : pyval) : res bool :=
  match v with
  | PStr s => Val (contains sid s)
  | PList l =>
      Val (existsb (fun x => match x with PStr t => str_eqb t sid | _ => false end) l)
  | PDict d => Val (match lookup sid d with Some _ => true | None => false end)
  | PNone | PBool _ | PInt _ | PFloat _ => Exc TypeError
  end.

(** The items a [for] loop takes from [v]. *)
Definition py_iter (v : pyval) : res (list pyval) :=
  match v with
  | PList l => Val l
  | PStr s => Val (map (fun c => PStr [c]) s)
  | PDict d => Val (map (fun kv => PStr (fst kv)) d)
  | PNone | PBool _ | PInt _ | PFloat _ => Exc TypeError
  end.


(** ** The two patterns of the resolver *)

(** [\d{2,6}] at the start of [s]: the longest run of digits there, cut
    at six; no match under two. *)
Fixpoint digit_run (s : pystr) : pystr :=
  match s with
  | c :: s' => if isdigit c then c :: digit_run s' else []
  | [] => []
  end.

Definition digits_2_6 (s : pystr) : option pystr :=
  let d := digit_run s in
  if (length d <? 2)%nat then None else Some (firstn 6 d).

(** [inv[-\s]?(\d{2,6})] anchored at the start of [s], giving group 1.
    The optional separator is greedy and backtracks. *)
Definition match_inv (s : pystr) : option pystr :=
  match s with
  | 105%N :: 110%N :: 118%N :: rest =>
      match rest with
      | c :: rest' =>
          if (c =? 45)%N || isspace c then
            match digits_2_6 rest' with
            | Some sid => Some sid
            | None => digits_2_6 rest
            end
          else digits_2_6 rest
      | [] => None
      end
  | _ => None
  end.

(** [re.search(p, s)]: the match at the leftmost position that has one. *)
Fixpoint re_search (p : pystr -> option pystr) (s : pystr) : option pystr :=
  match p s with
  | Some g => Some g
  | None =>
      match s with
      | [] => None
      | _ :: s' => re_search p s'
      end
  end.

(** ** [datetime.fromisoformat] and the order of its values *)

Record datetime : Type := mk_datetime
  { year : Z; month : Z; day : Z; hour : Z; minute : Z; second : Z }.

Definition digit_val (c : N) : option Z :=
  if isdigit c then Some (Z.of_N c - 48) else None.

Fixpoint int_of_digits (acc : Z) (s : pystr) : option Z :=
  match s with
  | [] => Some acc
  | c :: s' =>
      match digit_val c with
      | Some d => int_of_digits (10 * acc + d) s'
      | None => None
      end
  end.

Definition is_leap (y : Z) : bool :=
  (y mod 4 =? 0) && (negb (y mod 100 =? 0) || (y mod 400 =? 0)).

Definition days_in_month (y m : Z) : Z :=
  if m =? 2 then (if is_leap y then 29 else 28)
  else if (m =? 4) || (m =? 6) || (m =? 9) || (m =? 11) then 30
  else 31.

(** The [datetime] constructor's range checks. *)
Definition make_datetime (y mo d h mi s : Z) : res datetime :=
  if (1 <=? y) && (y <=? 9999) && (1 <=? mo) && (mo <=? 12)
     && (1 <=? d) && (d <=? days_in_month y mo)
     && (h <=? 23) && (mi <=? 59) && (s <=? 59)
  then Val (mk_datetime y mo d h mi s)
  else Exc ValueError.

(** [datetime.fromisoformat(v)] on [YYYY-MM-DD] and on
    [YYYY-MM-DDTHH:MM:SS] (or a blank for the [T]), both without offset.
    What it does on the other strings varies with the Python version and
    is left out. *)
Definition fromisoformat (v : pyval) : res datetime :=
  match v with
  | PStr s =>
      let date := firstn 10 s in
      let rest := skipn 10 s in
      match int_of_digits 0 (firstn 4 date), nth_error date 4,
            int_of_digits 0 (firstn 2 (skipn 5 date)), nth_error date 7,
            int_of_digits 0 (skipn 8 date) with
      | Some y, Some 45%N, Some mo, Some 45%N, Some d =>
          if (length date =? 10)%nat then
            match rest with
            | [] => make_datetime y mo d 0 0 0
            | [sep; h1; h2; 58%N; m1; m2; 58%N; s1; s2] =>
                match int_of_digits 0 [h1; h2], int_of_digits 0 [m1; m2],
                      int_of_digits 0 [s1; s2] with
                | Some h, Some mi, Some sec =>
                    if (sep =? 84)%N || (sep =? 32)%N
                    then make_datetime y mo d h mi sec
                    else Beyond
                | _, _, _ => Beyond
                end
            | _ => Beyond
            end
          else Beyond
      | _, _, _, _, _ => Beyond
      end
  | _ => Exc TypeError
  end.

Definition dt_tuple (d : datetime) : list Z :=
  [year d; month d; day d; hour d; minute d; second d].

Fixpoint lex_ltb (a b : list Z) : bool :=
  match a, b with
  | x :: a', y :: b' => (x <? y) || ((x =? y) && lex_ltb a' b')
  | _, _ => false
  end.

Definition dt_ltb (a b : datetime) : bool := lex_ltb (dt_tuple a) (dt_tuple b).

(** ** [sorted] *)

(** The keys [sorted] can meet here, by the class that decides whether
    two of them compare. *)
Inductive skey : Type :=
| SNum (q : Q)
| SStr (s : pystr)
| SDate (d : datetime)
| SList
| SOther.

Definition skey_of_val (v : pyval) : skey :=
  match v with
  | PBool b => SNum (if b then 1 else 0)
  | PInt n => SNum (inject_Z n)
  | PFloat q => SNum q
  | PStr s => SStr s
  | PList _ => SList
  | PNone | PDict _ => SOther
  end.

Definition Qltb (a b : Q) : bool := negb (Qle_bool b a).

(** [a < b] where it is defined and modelled. *)
Definition skey_ltb (a b : skey) : bool :=
  match a, b with
  | SNum x, SNum y => Qltb x y
  | SStr x, SStr y => str_ltb x y
  | SDate x, SDate y => dt_ltb x y
  | _, _ => false
  end.

Definition same_class (a b : skey) : bool :=
  match a, b with
  | SNum _, SNum _ | SStr _, SStr _ | SDate _, SDate _ | SList, SList => true
  | _, _ => false
  end.

Section Sorting.
Context {A : Type} (ltb : skey -> skey -> bool).

(** Stable insertion: [x] stops in front of the first element that is
    not below it. *)
Fixpoint insert (x : skey * A) (l : list (skey * A)) : list (skey * A) :=
  match l with
  | [] => [x]
  | y :: l' => if ltb (fst y) (fst x) then y :: insert x l' else x :: y :: l'
  end.

Definition stable_sort (l : list (skey * A)) : list (skey * A) :=
  fold_right insert [] l.

(** [reverse=True] reverses, sorts and reverses again, so that equal
    keys keep their order. *)
Definition sort_decorated (reverse : bool) (l : list (skey * A)) : list (skey * A) :=
  if reverse then rev (stable_sort (rev l)) else stable_sort l.
End Sorting.

(** [sorted(l, key=key, reverse=reverse)].  All keys are computed first.
    With two items or more, every item is compared with another one, and
    the comparisons join all items: keys of one class that has an order
    give the stable sort, whichever comparisons are made; a key with no
    order at all, or two classes, give [TypeError]; lists as keys are not
    modelled. *)
Definition py_sorted (key : pyval -> res skey) (reverse : bool)
    (l : list pyval) : res (list pyval) :=
  ks <- mapM key l ;;
  match ks with
  | [] | [_] => Val l
  | k0 :: _ :: _ =>
      if forallb (same_class k0) ks then
        match k0 with
        | SList => Beyond
        | _ => Val (map snd (sort_decorated skey_ltb reverse (combine ks l)))
        end
      else Exc TypeError
  end.

(** [l[0]]. *)
Definition first_item (l : list pyval) : res pyval :=
  match l with
  | x :: _ => Val x
  | [] => Exc IndexError
  end.

(** ** VoiceRef matching *)

(** A [for inv in items: if cond(inv): return inv] loop: [Some inv] when
    it returns, [None] when it runs to its end. *)
Fixpoint first_match (cond : pyval -> res bool) (items : list pyval)
    : res (option pyval) :=
  match items with
  | [] => Val None
  | inv :: items' =>
      b <- cond inv ;;
      if b then Val (Some inv) else first_match cond items'
  end.

(** [[i for i in items if keep(i)]]. *)
Fixpoint filterM (keep : pyval -> res bool) (items : list pyval)
    : res (list pyval) :=
  match items with
  | [] => Val []
  | i :: items' =>
      b <- keep i ;;
      r <- filterM keep items' ;;
      Val (if b then i :: r else r)
  end.

(** [str(inv.get('shortId')) == sid]. *)
Definition shortId_is (sid : pystr) (inv : pyval) : res bool :=
  sh <- py_get inv (lit "shortId") PNone ;;
  t <- py_str sh ;;
  Val (str_eqb t sid).

(** Tier 1's test:
    [str(inv.get('shortId')) == sid or
     (inv.get('invoiceId') and sid in inv.get('invoiceId'))]. *)
Definition tier1_cond (sid : pystr) (inv : pyval) : res bool :=
  b <- shortId_is sid inv ;;
  if b then Val true
  else
    iid <- py_get inv (lit "invoiceId") PNone ;;
    if truthy iid then
      iid' <- py_get inv (lit "invoiceId") PNone ;;
      py_contains sid iid'
    else Val false.

(** [s in inv.get(field,'').lower()]. *)
Definition field_has (s : pystr) (field : pystr) (inv : pyval) : res bool :=
  v <- py_get inv field (PStr []) ;;
  t <- py_lower v ;;
  Val (contains s t).

(** Tier 3's test, with the short circuit of [or]. *)
Definition tier3_cond (s : pystr) (inv : pyval) : res bool :=
  b1 <- field_has s (lit "vendor") inv ;;
  if b1 then Val true
  else
    b2 <- field_has s (lit "label") inv ;;
    if b2 then Val true else field_has s (lit "description") inv.

(** 1) inv-125 or invoice 125 *)
Definition tier1 (s : pystr) (invoices_list : pyval) : res (option pyval) :=
  match re_search match_inv s with
  | Some sid =>
      items <- py_iter invoices_list ;;
      first_match (tier1_cond sid) items
  | None => Val None
  end.

(** 2) digits (pay 125) *)
Definition tier2 (s : pystr) (invoices_list : pyval) : res (option pyval) :=
  match re_search digits_2_6 s with
  | Some sid =>
      items <- py_iter invoices_list ;;
      first_match (shortId_is sid) items
  | None => Val None
  end.

(** 3) vendor/label contains *)
Definition tier3 (s : pystr) (invoices_list : pyval) : res (option pyval) :=
  items <- py_iter invoices_list ;;
  first_match (tier3_cond s) items.

Definition is_unpaid (i : pyval) : res bool :=
  p <- py_get i (lit "paid") PNone ;;
  Val (negb (truthy p)).

Definition dueDate_key (x : pyval) : res skey :=
  d <- py_getitem x (lit "dueDate") ;;
  t <- fromisoformat d ;;
  Val (SDate t).

Definition amount_key (x : pyval) : res skey :=
  a <- py_getitem x (lit "amount") ;;
  Val (skey_of_val a).

(** 4) keywords: most recent, oldest, largest, smallest *)
Definition tier4 (s : pystr) (invoices_list : pyval) : res pyval :=
  items <- py_iter invoices_list ;;
  not_paid <- filterM is_unpaid items ;;
  match not_paid with
  | [] => Val PNone
  | _ :: _ =>
      if contains (lit "last") s || contains (lit "latest") s
         || contains (lit "most recent") s then
        l <- py_sorted dueDate_key true not_paid ;; first_item l
      else if contains (lit "oldest") s || contains (lit "earliest") s then
        l <- py_sorted dueDate_key false not_paid ;; first_item l
      else if contains (lit "largest") s || contains (lit "biggest") s
              || contains (lit "highest") s then
        l <- py_sorted amount_key true not_paid ;; first_item l
      else if contains (lit "smallest") s || contains (lit "small") s then
        l <- py_sorted amount_key false not_paid ;; first_item l
      else Val PNone
  end.

(** [ref.lower().strip()]. *)
Definition normalize (ref : pyval) : res pystr :=
  low <- py_lower ref ;;
  Val (strip low).

(** Resolve a natural language reference to an invoice of
    [invoices_list]; [PNone] when there is none. *)
Definition find_invoice_by_spoken_local (ref invoices_list : pyval) : res pyval :=
  if negb (truthy ref) then Val PNone
  else
    s <- normalize ref ;;
    r1 <- tier1 s invoices_list ;;
    match r1 with
    | Some inv => Val inv
    | None =>
        r2 <- tier2 s invoices_list ;;
        match r2 with
        | Some inv => Val inv
        | None =>
            r3 <- tier3 s invoices_list ;;
            match r3 with
            | Some inv => Val inv
            | None => tier4 s invoices_list
            end
        end
    end.

(** ** Programs that call the backend *)

(** What [requests.get] and [requests.post] are called with. *)
Inductive request : Type :=
| HttpGet (url : pystr) (params : pyval) (timeout : Z)
| HttpPost (url : pystr) (json : pyval) (timeout : Z).

(** A response object: its status, the text of the [HTTPError] that
    [raise_for_status] builds for it, and what [r.json()] gives: the
    decoded body, or the text of the [JSONDecodeError]. *)
Record response : Type := mk_response
  { status_code : Z; error_text : pystr; decoded : pystr + pyval }.

(** What a call comes back with: a [RequestException] raised under way
    (connection refused, timeout), or a response. *)
Inductive reply : Type :=
| Failed (msg : pystr)
| Answered (r : response).

Inductive io (A : Type) : Type :=
| Ret (a : A)
| Throw (e : exn)
| Lost
| Ask (rq : request) (k : reply -> io A).

Arguments Ret {A} a.
Arguments Throw {A} e.
Arguments Lost {A}.
Arguments Ask {A} rq k.

(** [try: m; k  except: handler], where [k] is what follows the
    statement: only [m] is guarded. *)
Fixpoint try_except {A B} (m : io A) (handler : exn -> io B) (k : A -> io B)
    : io B :=
  match m with
  | Ret a => k a
  | Throw e => handler e
  | Lost => Lost
  | Ask rq c => Ask rq (fun rp => try_except (c rp) handler k)
  end.

Definition iobind {A B} (m : io A) (k : A -> io B) : io B :=
  try_except m Throw k.

Definition lift {A} (m : res A) : io A :=
  match m with
  | Val a => Ret a
  | Exc e => Throw e
  | Beyond => Lost
  end.

Declare Scope io_scope.
Delimit Scope io_scope with io.
Notation "x <- m ;; k" := (iobind m (fun x => k))
  (at level 61, m at next level, right associativity) : io_scope.

(** The backend: its reply to a request, given the requests made before
    (latest first). *)
Definition backend : Type := list request -> request -> reply.

(** Running a program against a backend: the calls made with their
    replies, in order, and how the program ends. *)
Fixpoint run {A} (p : io A) (env : backend) (hist : list request)
    : list (request * reply) * res A :=
  match p with
  | Ret a => ([], Val a)
  | Throw e => ([], Exc e)
  | Lost => ([], Beyond)
  | Ask rq k =>
      let rp := env hist rq in
      let '(tr, out) := run (k rp) env (rq :: hist) in
      ((rq, rp) :: tr, out)
  end.

(** [str(e)] for the exceptions whose text is fixed by the program or by
    the attribute that is missing. *)
Definition str_exn (e : exn) : res pystr :=
  match e with
  | AttributeError ty attr =>
      Val (lit "'" ++ ty ++ lit "' object has no attribute '" ++ attr ++ lit "'")
  | KeyError k => Val (lit "'" ++ k ++ lit "'")
  | RequestException msg | RuntimeError msg => Val msg
  | IndexError | TypeError | ValueError => Beyond
  end.

Definition REQUEST_TIMEOUT : Z := 8.

Definition flask_response : Type := pyval * Z.

(** [assistant_ok]: the success envelope, with status 200. *)
Definition assistant_ok (data speak cards message : pyval) : flask_response :=
  (PDict [(lit "success", PBool true);
          (lit "message", py_or message (PStr (lit "ok")));
          (lit "data", py_or data (PDict []));
          (lit "speak", py_or speak (PStr []));
          (lit "cards", py_or cards (PList []))], 200).

(** [assistant_err]. *)
Definition assistant_err (msg : pystr) (code : Z) : flask_response :=
  (PDict [(lit "success", PBool false); (lit "message", PStr msg)], code).

Definition is_dict (v : pyval) : bool :=
  match v with PDict _ => true | _ => false end.

(** *** What the handler does with each reply

    The statements that follow the call in each [try] make no call
    themselves. *)

(** [invs_res.get('data', {}).get('invoices', [])]. *)
Definition invoices_in (invs_res : pyval) : res pyval :=
  d <- py_get invs_res (lit "data") (PDict []) ;;
  py_get d (lit "invoices") (PList []).

(** [inv_res.get('data', {}).get('invoice')] and the test that follows;
    the [return] inside the [try] is the [inl]. *)
Definition invoice_in (inv_res : pyval) : res (flask_response + pyval) :=
  d <- py_get inv_res (lit "data") (PDict []) ;;
  invoice <- py_get d (lit "invoice") PNone ;;
  if negb (truthy invoice)
  then Val (inl (assistant_err (lit "Invoice not found") 404))
  else Val (inr invoice).

(** [mandate_data], [signedMandate] and [mandateId]. *)
Definition mandate_in (mandate_res : pyval) : res (pyval * pyval * pyval) :=
  d <- py_get mandate_res (lit "data") PNone ;;
  let mandate_data := py_or d mandate_res in
  signedMandate <- py_get mandate_data (lit "signedMandate") PNone ;;
  mandateId <- py_get mandate_data (lit "mandateId") PNone ;;
  Val (mandate_data, signedMandate, mandateId).

(** The success response, built from the reply to the payment. *)
Definition receipt_response (invoiceId mandate_data pay_res : pyval)
    : res flask_response :=
  d <- py_get pay_res (lit "data") PNone ;;
  let pay_data := py_or d pay_res in
  receipt <- (if is_dict pay_data
              then py_get pay_data (lit "receipt") PNone
              else Val pay_data) ;;
  inv_s <- py_str invoiceId ;;
  amt <- py_get receipt (lit "amount") PNone ;;
  amt_s <- py_str amt ;;
  let speak := lit "Payment successful. Invoice " ++ inv_s
               ++ lit " paid for $" ++ amt_s ++ lit "." in
  rid <- py_get receipt (lit "receiptId") PNone ;;
  rid_s <- py_str rid ;;
  amt' <- py_get receipt (lit "amount") PNone ;;
  amt_s' <- py_str amt' ;;
  inv_s' <- py_str invoiceId ;;
  let card :=
    PDict [(lit "title", PStr (lit "Receipt " ++ rid_s));
           (lit "subtitle",
            PStr (lit "$" ++ amt_s' ++ lit " " ++ [8226%N] ++ lit " " ++ inv_s'));
           (lit "metadata", receipt)] in
  message <- py_get pay_res (lit "message") PNone ;;
  Val (assistant_ok
         (PDict [(lit "cart", mandate_data); (lit "payment", pay_data)])
         (PStr speak) (PList [card]) message).

(** Resolve voiceRef -> invoice if provided: the invoice named, or the
    response that ends the request. *)
Definition resolve_voiceRef (invoiceId voiceRef invoice_list : pyval)
    : res (flask_response + pyval) :=
  if truthy voiceRef && negb (truthy invoiceId) then
    inv <- find_invoice_by_spoken_local voiceRef invoice_list ;;
    if negb (truthy inv)
    then Val (inl (assistant_err
           (lit "I couldn't find an invoice matching that description") 404))
    else
      i <- py_get inv (lit "invoiceId") PNone ;;
      Val (inr i)
  else Val (inr invoiceId).

Section Agent.
Local Open Scope io_scope.

(** [BACKEND]: the backend's base address, from the environment. *)
Variable BACKEND : pystr.

(** [r.raise_for_status()]. *)
Definition raise_for_status (r : response) : io unit :=
  if (400 <=? status_code r) && (status_code r <? 600)
  then Throw (RequestException (error_text r))
  else Ret tt.

(** [r.json()]. *)
Definition response_json (r : response) : io pyval :=
  match decoded r with
  | inr v => Ret v
  | inl msg => Throw (RequestException msg)
  end.

Definition send (rq : request) : io response :=
  Ask rq (fun rp =>
    match rp with
    | Failed msg => Throw (RequestException msg)
    | Answered r => Ret r
    end).

(** [except requests.RequestException as e: raise RuntimeError(...)]. *)
Definition reraise (prefix : pystr) (e : exn) : io pyval :=
  match e with
  | RequestException msg => Throw (RuntimeError (prefix ++ msg))
  | _ => Throw e
  end.

Definition backend_get (path : pystr) (params : pyval) : io pyval :=
  let url := BACKEND ++ path in
  try_except
    (r <- send (HttpGet url params REQUEST_TIMEOUT) ;;
     _ <- raise_for_status r ;;
     response_json r)
    (reraise (lit "backend_get error: "))
    Ret.

Definition backend_post (path : pystr) (payload : pyval) : io pyval :=
  let url := BACKEND ++ path in
  try_except
    (r <- send (HttpPost url payload REQUEST_TIMEOUT) ;;
     _ <- raise_for_status r ;;
     response_json r)
    (reraise (lit "backend_post error: "))
    Ret.

(** [return assistant_err(f"{prefix}{e}", code)]. *)
Definition fail_with (prefix : pystr) (code : Z) (e : exn) : io flask_response :=
  msg <- lift (str_exn e) ;;
  Ret (assistant_err (prefix ++ msg) code).

(** The guarded part of "Execute payment": the body of its [try]. *)
Definition execute_payment (invoiceId mandate_data pay_payload : pyval)
    : io flask_response :=
  pay_res <- backend_post (lit "/api/pay") pay_payload ;;
  lift (receipt_response invoiceId mandate_data pay_res).

Definition pay_payload (invoiceId signedMandate mandateId : pyval) : pyval :=
  PDict [(lit "mandateId", mandateId);
         (lit "signedMandate", signedMandate);
         (lit "invoiceId", invoiceId);
         (lit "paymentMethod", PStr (lit "agent-demo-card"))].

(** Execute payment *)
Definition pay_stage (invoiceId mandate_data signedMandate mandateId : pyval)
    : io flask_response :=
  try_except
    (execute_payment invoiceId mandate_data
       (pay_payload invoiceId signedMandate mandateId))
    (fail_with (lit "Payment failed: ") 502)
    Ret.

(** The body of the Cart mandate request. *)
Definition cart_payload (user invoiceId : pyval) (action : pystr)
    (amountLimit : pyval) : pyval :=
  PDict [(lit "userId", user);
         (lit "type", PStr (lit "Cart"));
         (lit "action", PStr action);
         (lit "amountLimit", amountLimit);
         (lit "invoiceId", invoiceId)].

(** The guarded part of "Create cart mandate". *)
Definition create_mandate (payload : pyval) : io (pyval * pyval * pyval) :=
  mandate_res <- backend_post (lit "/api/mandates") payload ;;
  lift (mandate_in mandate_res).

(** Create cart mandate *)
Definition mandate_stage (user invoiceId invoice : pyval) : io flask_response :=
  inv_s <- lift (py_str invoiceId) ;;
  amountLimit <- lift (py_get invoice (lit "amount") PNone) ;;
  let payload :=
    cart_payload user invoiceId (lit "Pay invoice " ++ inv_s) amountLimit in
  try_except
    (create_mandate payload)
    (fail_with (lit "Failed to create cart mandate: ") 502)
    (fun '(mandate_data, signedMandate, mandateId) =>
       pay_stage invoiceId mandate_data signedMandate mandateId).

(** The guarded part of "Lookup invoice details". *)
Definition lookup_invoice (invoiceId : pyval) : io (flask_response + pyval) :=
  inv_s <- lift (py_str invoiceId) ;;
  inv_res <- backend_get (lit "/api/invoices/" ++ inv_s) PNone ;;
  lift (invoice_in inv_res).

(** Lookup invoice details *)
Definition lookup_stage (user invoiceId : pyval) : io flask_response :=
  try_except
    (lookup_invoice invoiceId)
    (fail_with (lit "Invoice lookup failed: ") 404)
    (fun r : flask_response + pyval =>
       match r with
       | inl early => Ret early
       | inr invoice => mandate_stage user invoiceId invoice
       end).

(** What follows the fetch of the user's invoices. *)
Definition resolve_stage (user invoiceId voiceRef invoice_list : pyval)
    : io flask_response :=
  r <- lift (resolve_voiceRef invoiceId voiceRef invoice_list) ;;
  match r with
  | inl early => Ret early
  | inr invoiceId =>
      if negb (truthy invoiceId)
      then Ret (assistant_err (lit "invoiceId or voiceRef required") 400)
      else lookup_stage user invoiceId
  end.

(** The guarded part of "Fetch user's invoices". *)
Definition fetch_invoices (user : pyval) : io pyval :=
  invs_res <- backend_get (lit "/api/invoices") (PDict [(lit "userId", user)]) ;;
  lift (invoices_in invs_res).

(** POST /agent/pay, body: { userId, invoiceId (optional), voiceRef
    (optional) }; [request_json] is [request.json]. *)
Definition agent_pay_invoice (request_json : pyval) : io flask_response :=
  let body := py_or request_json (PDict []) in
  user <- lift (py_get body (lit "userId") PNone) ;;
  invoiceId <- lift (py_get body (lit "invoiceId") PNone) ;;
  voiceRef <- lift (py_get body (lit "voiceRef") PNone) ;;
  if negb (truthy user)
  then Ret (assistant_err (lit "userId required") 400)
  else
    (* Fetch user's invoices (scope matching to user) *)
    try_except
      (fetch_invoices user)
      (fail_with (lit "Could not fetch invoices: ") 502)
      (resolve_stage user invoiceId voiceRef).
End Agent.

(** ** The data model, as the properties below read it *)

Definition opt_field (P : pyval -> bool) (k : pystr) (d : list (pystr * pyval)) : bool :=
  match lookup k d with
  | Some v => P v
  | None => true
  end.

Definition is_str (v : pyval) : bool :=
  match v with PStr _ => true | _ => false end.

(** A [str] of characters whose lower case is modelled. *)
Definition is_text (v : pyval) : bool :=
  match v with
  | PStr s => forallb (fun c => match lower_char c with Some _ => true | None => false end) s
  | _ => false
  end.

Definition is_label (v : pyval) : bool :=
  match v with PStr _ | PInt _ => true | _ => false end.

Definition is_number (v : pyval) : bool :=
  match v with PInt _ | PFloat _ => true | _ => false end.

Definition is_bool (v : pyval) : bool :=
  match v with PBool _ => true | _ => false end.

(** An Invoice: a JSON object whose attributes, where it has them, are of
    the types of the data model.  [shortId] is a string or an integer. *)
Definition is_invoice (v : pyval) : bool :=
  match v with
  | PDict d =>
      opt_field is_str (lit "invoiceId") d
      && opt_field is_label (lit "shortId") d
      && opt_field is_text (lit "vendor") d
      && opt_field is_text (lit "label") d
      && opt_field is_text (lit "description") d
      && opt_field is_number (lit "amount") d
      && opt_field is_str (lit "dueDate") d
      && opt_field is_bool (lit "paid") d
  | _ => false
  end.

Definition field (k : pystr) (inv : pyval) : option pyval :=
  match inv with
  | PDict d => lookup k d
  | _ => None
  end.

(** The label an invoice is known by: its [shortId] as text. *)
Definition shortId_text (inv : pyval) : option pystr :=
  match field (lit "shortId") inv with
  | Some (PStr t) => Some t
  | Some (PInt n) => Some (str_of_Z n)
  | _ => None
  end.

(** Tier 1's criterion: [shortId] equal to [sid], or [sid] inside
    [invoiceId]. *)
Definition tier1_matches (sid : pystr) (inv : pyval) : bool :=
  match shortId_text inv with
  | Some t => str_eqb t sid
  | None => false
  end
  || match field (lit "invoiceId") inv with
     | Some (PStr i) => contains sid i
     | _ => false
     end.

(** Tier 2's criterion: [shortId] equal to [sid]. *)
Definition tier2_matches (sid : pystr) (inv : pyval) : bool :=
  match shortId_text inv with
  | Some t => str_eqb t sid
  | None => false
  end.

(** [paid] as the resolver reads it: an invoice without the attribute
    counts as unpaid. *)
Definition paid_flag (inv : pyval) : bool :=
  match field (lit "paid") inv with
  | Some v => truthy v
  | None => false
  end.

Definition unpaid (l : list pyval) : list pyval :=
  filter (fun c => negb (paid_flag c)) l.

Definition amount_of (inv : pyval) : option Q :=
  match field (lit "amount") inv with
  | Some (PInt n) => Some (inject_Z n)
  | Some (PFloat q) => Some q
  | _ => None
  end.

Definition amount (inv : pyval) : Q :=
  match amount_of inv with
  | Some q => q
  | None => 0
  end.

Definition names_largest (s : pystr) : bool :=
  contains (lit "largest") s || contains (lit "biggest") s
  || contains (lit "highest") s.

(** The keywords that tier 4 looks for before the ones of the amount. *)
Definition names_a_date (s : pystr) : bool :=
  contains (lit "last") s || contains (lit "latest") s
  || contains (lit "most recent") s
  || contains (lit "oldest") s || contains (lit "earliest") s.

(** A captured identifier is a run of two to six digits. *)
Definition is_sid (sid : pystr) : Prop :=
  forallb isdigit sid = true /\ (2 <= length sid <= 6)%nat.

(** ** Sample data *)

(** The two candidates of the "pay 99" example. *)
Definition cand_99 : pyval := PDict [(lit "shortId", PStr (lit "99"))].
Definition cand_099 : pyval := PDict [(lit "shortId", PStr (lit "099"))].

(** An unpaid invoice that no identifier "99" names. *)
Definition inv_acme : pyval :=
  PDict [(lit "invoiceId", PStr (lit "A-7"));
         (lit "shortId", PStr (lit "12"));
         (lit "vendor", PStr (lit "Acme"));
         (lit "amount", PInt 40);
         (lit "dueDate", PStr (lit "2024-05-01"));
         (lit "paid", PBool false)].

(** Two unpaid invoices: the larger one is due later. *)
Definition inv_big_late : pyval :=
  PDict [(lit "invoiceId", PStr (lit "B-1"));
         (lit "shortId", PStr (lit "31"));
         (lit "vendor", PStr (lit "Borealis"));
         (lit "amount", PInt 50);
         (lit "dueDate", PStr (lit "2024-03-01"));
         (lit "paid", PBool false)].

Definition inv_small_early : pyval :=
  PDict [(lit "invoiceId", PStr (lit "C-2"));
         (lit "shortId", PStr (lit "32"));
         (lit "vendor", PStr (lit "Cobalt"));
         (lit "amount", PInt 10);
         (lit "dueDate", PStr (lit "2024-01-01"));
         (lit "paid", PBool false)].

(** [x] is what a stable ascending sort of [l] by [ltb] puts last:
    nothing before [x] in [l] is above it, everything after it is
    strictly below. *)
Definition last_pick {A} (ltb : skey -> skey -> bool) (l : list (skey * A))
    (x : skey * A) : Prop :=
  exists pre post, l = pre ++ x :: post
    /\ (forall y, In y pre -> ltb (fst x) (fst y) = false)
    /\ (forall y, In y post -> ltb (fst y) (fst x) = true).

(** The keys of numbers. *)
Definition is_num_key (k : skey) : Prop := exists q, k = SNum q.

(** ** Replies, as the properties below read them *)

(** The text of the [RequestException] a reply ends in, if it does: the
    call itself failed, the status is an error one, or the body is not
    JSON. *)
Definition failure (rp : reply) : option pystr :=
  match rp with
  | Failed msg => Some msg
  | Answered r =>
      if (400 <=? status_code r) && (status_code r <? 600)
      then Some (error_text r)
      else match decoded r with
           | inl msg => Some msg
           | inr _ => None
           end
  end.

(** What [backend_get] and [backend_post] give for a reply; [prefix] is
    the wrapper's own text. *)
Definition backend_result (prefix : pystr) (rp : reply) : res pyval :=
  match rp with
  | Failed msg => Exc (RuntimeError (prefix ++ msg))
  | Answered r =>
      if (400 <=? status_code r) && (status_code r <? 600)
      then Exc (RuntimeError (prefix ++ error_text r))
      else match decoded r with
           | inl msg => Exc (RuntimeError (prefix ++ msg))
           | inr v => Val v
           end
  end.

(** The four calls of a payment attempt. *)
Definition list_request (B : pystr) (user : pyval) : request :=
  HttpGet (B ++ lit "/api/invoices") (PDict [(lit "userId", user)]) REQUEST_TIMEOUT.

Definition lookup_request (B : pystr) (inv_s : pystr) : request :=
  HttpGet (B ++ lit "/api/invoices/" ++ inv_s) PNone REQUEST_TIMEOUT.

Definition mandate_request (B : pystr) (payload : pyval) : request :=
  HttpPost (B ++ lit "/api/mandates") payload REQUEST_TIMEOUT.

Definition pay_request (B : pystr) (payload : pyval) : request :=
  HttpPost (B ++ lit "/api/pay") payload REQUEST_TIMEOUT.

Definition is_pay_request (B : pystr) (rq : request) : Prop :=
  exists payload, rq = pay_request B payload.

(** What an [except Exception as e] handler of the payment attempt
    returns for [e]. *)
Definition handled (prefix : pystr) (code : Z) (e : exn) : res flask_response :=
  msg <- str_exn e ;; Val (assistant_err (prefix ++ msg) code).

(** The stages of a payment attempt, by the position of their call: the
    text and the status a failed call is answered with, and the shape of
    the call. *)
Definition stage_text (n : nat) : pystr :=
  match n with
  | 0%nat => lit "Could not fetch invoices: " ++ lit "backend_get error: "
  | 1%nat => lit "Invoice lookup failed: " ++ lit "backend_get error: "
  | 2%nat => lit "Failed to create cart mandate: " ++ lit "backend_post error: "
  | _ => lit "Payment failed: " ++ lit "backend_post error: "
  end.

Definition stage_code (n : nat) : Z :=
  match n with
  | 1%nat => 404
  | _ => 502
  end.

Definition stage_request (B : pystr) (n : nat) (rq : request) : Prop :=
  match n with
  | 0%nat => exists user, rq = list_request B user
  | 1%nat => exists inv_s, rq = lookup_request B inv_s
  | 2%nat => exists payload, rq = mandate_request B payload
  | 3%nat => exists payload, rq = pay_request B payload
  | _ => False
  end.

(** A trace that starts at stage [k]: the calls are those of the stages
    in order, and a call that fails is the last one and decides the
    response. *)
Definition staged (B : pystr) (k : nat) (tr : list (request * reply))
    (out : res flask_response) : Prop :=
  forall n rq rp,
    nth_error tr n = Some (rq, rp) ->
    stage_request B (k + n) rq
    /\ forall msg, failure rp = Some msg ->
         length tr = S n
         /\ out = Val (assistant_err (stage_text (k + n) ++ msg) (stage_code (k + n))).

(** [d.get(k)] on the entries of a [dict]. *)
Definition dict_get (d : list (pystr * pyval)) (k : pystr) : pyval :=
  match lookup k d with
  | Some x => x
  | None => PNone
  end.



(** ** A sample deployment *)

Definition demo_url : pystr := lit "http://localhost:3000".

Definition ok_reply (v : pyval) : reply := Answered (mk_response 200 [] (inr v)).

(** A backend that gives its replies in order, whatever is asked. *)
Definition scripted (replies : list reply) : backend :=
  fun hist _ => nth (length hist) replies (Failed (lit "no reply")).


Definition body_direct : pyval :=
  PDict [(lit "userId", PStr (lit "u1")); (lit "invoiceId", PStr (lit "INV-9"))].

Definition invoice_9 : pyval :=
  PDict [(lit "invoiceId", PStr (lit "INV-9")); (lit "amount", PInt 42)].

Definition invoices_json : pyval :=
  PDict [(lit "data", PDict [(lit "invoices", PList [inv_acme])])].

Definition invoice_json : pyval :=
  PDict [(lit "data", PDict [(lit "invoice", invoice_9)])].

Definition mandate_json : pyval :=
  PDict [(lit "data", PDict [(lit "mandateId", PStr (lit "m-1"));
                             (lit "signedMandate", PStr (lit "sig"))])].


Definition env_lookup_down : backend :=
  scripted [ok_reply invoices_json; Failed (lit "connection refused")].

Definition env_mandate_down : backend :=
  scripted [ok_reply invoices_json; ok_reply invoice_json; Failed (lit "timed out")].

(** ** The other routes *)

(** [len(v)]. *)
Definition py_len (v : pyval) : res Z :=
  match v with
  | PList l => Val (Z.of_nat (length l))
  | PStr s => Val (Z.of_nat (length s))
  | PDict d => Val (Z.of_nat (length d))
  | PNone | PBool _ | PInt _ | PFloat _ => Exc TypeError
  end.

(** [v[0]].  On a [dict] it is the [KeyError] of an integer key, whose
    text is not modelled. *)
Definition py_first (v : pyval) : res pyval :=
  match v with
  | PList (x :: _) => Val x
  | PStr (c :: _) => Val (PStr [c])
  | PList [] | PStr [] => Exc IndexError
  | PDict _ => Beyond
  | PNone | PBool _ | PInt _ | PFloat _ => Exc TypeError
  end.

(** [request.args]: the parameters of the query string, in order. *)
Definition query_args : Type := list (pystr * pystr).

(** [request.args.get(k, '')]: the first value given for [k]. *)
Fixpoint arg (k : pystr) (args : query_args) : pystr :=
  match args with
  | [] => []
  | (k', v) :: args' => if str_eqb k k' then v else arg k args'
  end.

(** [if v: params[k] = v], on the entries of [params]; no key is set
    twice in this program. *)
Definition set_if (k v : pystr) (params : list (pystr * pyval))
    : list (pystr * pyval) :=
  match v with
  | [] => params
  | _ :: _ => params ++ [(k, PStr v)]
  end.

(** The card of one invoice in [agent_list_invoices]. *)
Definition list_card (i : pyval) : res pyval :=
  title <- py_get i (lit "label") PNone ;;
  sh <- py_get i (lit "shortId") PNone ;;
  sh_s <- py_str sh ;;
  am <- py_get i (lit "amount") PNone ;;
  am_s <- py_str am ;;
  du <- py_get i (lit "dueDate") PNone ;;
  du_s <- py_str du ;;
  Val (PDict [(lit "title", title);
              (lit "subtitle",
               PStr (lit "#" ++ sh_s ++ lit " " ++ [8226%N] ++ lit " $" ++ am_s
                     ++ lit " " ++ [8226%N] ++ lit " due " ++ du_s));
              (lit "metadata", i)]).

(** What [agent_list_invoices] makes of the backend's answer. *)
Definition list_response (res_ : pyval) : res flask_response :=
  invoices <- invoices_in res_ ;;
  speak <- (if negb (truthy invoices)
            then Val (lit "You have no matching invoices.")
            else
              top <- py_first invoices ;;
              n <- py_len invoices ;;
              la <- py_get top (lit "label") PNone ;;
              la_s <- py_str la ;;
              am <- py_get top (lit "amount") PNone ;;
              am_s <- py_str am ;;
              du <- py_get top (lit "dueDate") PNone ;;
              du_s <- py_str du ;;
              Val (lit "You have " ++ str_of_Z n ++ lit " invoice(s). First: "
                   ++ la_s ++ lit " for $" ++ am_s ++ lit " due " ++ du_s
                   ++ lit ".")) ;;
  items <- py_iter invoices ;;
  cards <- mapM list_card items ;;
  message <- py_get res_ (lit "message") PNone ;;
  Val (assistant_ok (PDict [(lit "raw", invoices)]) (PStr speak) (PList cards)
         message).

(** The card of one invoice in [agent_search]. *)
Definition search_card (inv : pyval) : res pyval :=
  title <- py_get inv (lit "label") PNone ;;
  sh <- py_get inv (lit "shortId") PNone ;;
  sh_s <- py_str sh ;;
  am <- py_get inv (lit "amount") PNone ;;
  am_s <- py_str am ;;
  Val (PDict [(lit "title", title);
              (lit "subtitle",
               PStr (lit "#" ++ sh_s ++ lit " " ++ [8226%N] ++ lit " $" ++ am_s));
              (lit "metadata", inv)]).

(** What [agent_search] makes of the backend's answer. *)
Definition search_response (q : pystr) (res_ : pyval) : res flask_response :=
  invoices <- invoices_in res_ ;;
  n <- py_len invoices ;;
  let speak := lit "Found " ++ str_of_Z n ++ lit " invoices matching " ++ q
               ++ lit "." in
  items <- py_iter invoices ;;
  cards <- mapM search_card items ;;
  message <- py_get res_ (lit "message") PNone ;;
  Val (assistant_ok (PDict [(lit "invoices", invoices)]) (PStr speak)
         (PList cards) message).

(** What [agent_create_intent] makes of the backend's answer. *)
Definition intent_response (action res_ : pyval) : res flask_response :=
  data <- (if truthy res_ then py_get res_ (lit "data") PNone else Val (PDict [])) ;;
  action_s <- py_str action ;;
  Val (assistant_ok data (PStr (lit "Intent created for " ++ action_s)) PNone
         (PStr (lit "Intent created"))).

(** The body of the Intent mandate request. *)
Definition intent_payload (user action amountLimit : pyval) : pyval :=
  PDict [(lit "userId", user);
         (lit "type", PStr (lit "Intent"));
         (lit "action", action);
         (lit "amountLimit", py_or amountLimit (PInt 0));
         (lit "invoiceId", PNone)].

Section Routes.
Local Open Scope io_scope.

Variable BACKEND : pystr.

(** GET / *)
Definition home : flask_response :=
  (PDict [(lit "success", PBool true);
          (lit "message", PStr (lit "Agent service running"));
          (lit "backend", PStr BACKEND)], 200).

(** GET /health *)
Definition health : flask_response :=
  (PDict [(lit "status", PStr (lit "ok")); (lit "backend", PStr BACKEND)], 200).

(** The [params] of [agent_list_invoices]. *)
Definition list_params (user_id : pystr) (args : query_args) : pyval :=
  let q := strip (arg (lit "q") args) in
  let category := strip (arg (lit "category") args) in
  PDict (set_if (lit "userId") user_id
           (set_if (lit "category") category
              (set_if (lit "q") q []))).

(** GET /agent/invoices/<user_id>?category=&q= *)
Definition agent_list_invoices (user_id : pystr) (args : query_args)
    : io flask_response :=
  try_except
    (res_ <- backend_get BACKEND (lit "/api/invoices") (list_params user_id args) ;;
     lift (list_response res_))
    (fail_with (lit "Failed to fetch invoices: ") 502)
    Ret.

(** The [params] of [agent_search], for a query [q] that is not empty. *)
Definition search_params (q : pystr) (args : query_args) : pyval :=
  let user := strip (arg (lit "userId") args) in
  let category := strip (arg (lit "category") args) in
  PDict (set_if (lit "category") category
           (set_if (lit "userId") user [(lit "q", PStr q)])).

(** GET /agent/search?q=...&userId=...&category=... *)
Definition agent_search (args : query_args) : io flask_response :=
  let q := strip (arg (lit "q") args) in
  match q with
  | [] => Ret (assistant_err (lit "query 'q' required") 400)
  | _ :: _ =>
      try_except
        (res_ <- backend_get BACKEND (lit "/api/invoices") (search_params q args) ;;
         lift (search_response q res_))
        (fail_with (lit "Search failed: ") 502)
        Ret
  end.

(** POST /agent/intent, body: { userId, action, amountLimit (optional) } *)
Definition agent_create_intent (request_json : pyval) : io flask_response :=
  let body := py_or request_json (PDict []) in
  user <- lift (py_get body (lit "userId") PNone) ;;
  action <- lift (py_get body (lit "action") (PStr (lit "autopay"))) ;;
  amountLimit <- lift (py_get body (lit "amountLimit") PNone) ;;
  if negb (truthy user)
  then Ret (assistant_err (lit "userId required") 400)
  else
    try_except
      (res_ <- backend_post BACKEND (lit "/api/mandates")
                 (intent_payload user action amountLimit) ;;
       lift (intent_response action res_))
      (fail_with (lit "Failed to create intent: ") 502)
      Ret.
End Routes.

(** A response of a payment attempt that has [remaining] stages to go:
    its status is one of four, and status 200 means that every remaining
    call was made and none failed. *)
Definition response_ok (remaining : nat) (tr : list (request * reply))
    (out : res flask_response) : Prop :=
  forall body code, out = Val (body, code) ->
    (code = 200 \/ code = 400 \/ code = 404 \/ code = 502)
    /\ (code = 200 ->
        length tr = remaining
        /\ Forall (fun ev => failure (snd ev) = None) tr).

(** ** Tier 4, as the properties below read it *)

Definition is_date_key (k : skey) : Prop := exists t, k = SDate t.

(** [x] is what a stable ascending sort of [l] by [ltb] puts first:
    everything before [x] in [l] is strictly above it, nothing after it
    is below. *)
Definition first_pick {A} (ltb : skey -> skey -> bool) (l : list (skey * A))
    (x : skey * A) : Prop :=
  exists pre post, l = pre ++ x :: post
    /\ (forall y, In y pre -> ltb (fst x) (fst y) = true)
    /\ (forall y, In y post -> ltb (fst y) (fst x) = false).

(** The due date of an invoice, where it has one in the two formats
    that are modelled. *)
Definition due_of (inv : pyval) : option datetime :=
  match field (lit "dueDate") inv with
  | Some v => match fromisoformat v with
              | Val t => Some t
              | _ => None
              end
  | None => None
  end.

Definition due (inv : pyval) : datetime :=
  match due_of inv with
  | Some t => t
  | None => mk_datetime 0 0 0 0 0 0
  end.

Definition names_latest (s : pystr) : bool :=
  contains (lit "last") s || contains (lit "latest") s
  || contains (lit "most recent") s.

Definition names_oldest (s : pystr) : bool :=
  contains (lit "oldest") s || contains (lit "earliest") s.

Definition names_smallest (s : pystr) : bool :=
  contains (lit "smallest") s || contains (lit "small") s.

(** Tier 3's criterion: the reference inside the lower-cased vendor,
    label or description. *)
Definition lower_text (v : option pyval) : pystr :=
  match v with
  | Some (PStr t) => match lower_chars t with Val u => u | _ => [] end
  | _ => []
  end.

Definition tier3_matches (s : pystr) (inv : pyval) : bool :=
  contains s (lower_text (field (lit "vendor") inv))
  || contains s (lower_text (field (lit "label") inv))
  || contains s (lower_text (field (lit "description") inv)).

(** ** Further sample data *)

Definition receipt_json : pyval :=
  PDict [(lit "message", PStr (lit "paid"));
         (lit "data", PDict [(lit "receipt",
                              PDict [(lit "receiptId", PStr (lit "r-1"));
                                     (lit "amount", PInt 42)])])].

(** A backend where the four calls of a payment go through. *)
Definition env_all_up : backend :=
  scripted [ok_reply invoices_json; ok_reply invoice_json;
            ok_reply mandate_json; ok_reply receipt_json].

(** The response to the payment of INV-9 on that backend. *)
Definition paid_body : pyval :=
  PDict [(lit "success", PBool true);
         (lit "message", PStr (lit "paid"));
         (lit "data",
          PDict [(lit "cart",
                  PDict [(lit "mandateId", PStr (lit "m-1"));
                         (lit "signedMandate", PStr (lit "sig"))]);
                 (lit "payment",
                  PDict [(lit "receipt",
                          PDict [(lit "receiptId", PStr (lit "r-1"));
                                 (lit "amount", PInt 42)])])]);
         (lit "speak", PStr (lit "Payment successful. Invoice INV-9 paid for $42."));
         (lit "cards",
          PList [PDict [(lit "title", PStr (lit "Receipt r-1"));
                        (lit "subtitle",
                         PStr (lit "$42 " ++ [8226%N] ++ lit " INV-9"));
                        (lit "metadata",
                         PDict [(lit "receiptId", PStr (lit "r-1"));
                                (lit "amount", PInt 42)])]])].

Definition entries_direct : list (pystr * pyval) :=
  [(lit "userId", PStr (lit "u1")); (lit "invoiceId", PStr (lit "INV-9"))].

Definition entries_both : list (pystr * pyval) :=
  [(lit "voiceRef", PStr (lit "the largest one"));
   (lit "userId", PStr (lit "u1")); (lit "invoiceId", PStr (lit "INV-9"))].

Definition body_voice_unknown : pyval :=
  PDict [(lit "userId", PStr (lit "u1")); (lit "voiceRef", PStr (lit "zebra"))].

Definition args_blank : query_args := [(lit "q", lit "   ")].

Definition args_acme : query_args :=
  [(lit "q", lit " acme "); (lit "userId", lit "u1")].

Definition body_intent : pyval :=
  PDict [(lit "userId", PStr (lit "u1")); (lit "action", PStr (lit "rent"))].

Definition env_mandate_only : backend := scripted [ok_reply mandate_json].

Definition no_invoices_json : pyval :=
  PDict [(lit "data", PDict [(lit "invoices", PList [])])].

Definition env_no_invoices : backend := scripted [ok_reply no_invoices_json].

(** A paid invoice, larger than the unpaid ones. *)
Definition inv_paid : pyval :=
  PDict [(lit "invoiceId", PStr (lit "D-3"));
         (lit "shortId", PStr (lit "33"));
         (lit "vendor", PStr (lit "Dune"));
         (lit "amount", PInt 90);
         (lit "dueDate", PStr (lit "2024-06-01"));
         (lit "paid", PBool true)].

(** The responses of the listing and of the search for "acme" on the
    backend that holds [inv_acme]. *)
Definition listed_body : pyval :=
  PDict [(lit "success", PBool true);
         (lit "message", PStr (lit "ok"));
         (lit "data", PDict [(lit "raw", PList [inv_acme])]);
         (lit "speak",
          PStr (lit "You have 1 invoice(s). First: None for $40 due 2024-05-01."));
         (lit "cards",
          PList [PDict [(lit "title", PNone);
                        (lit "subtitle",
                         PStr (lit "#12 " ++ [8226%N] ++ lit " $40 " ++ [8226%N]
                               ++ lit " due 2024-05-01"));
                        (lit "metadata", inv_acme)]])].

Definition found_body : pyval :=
  PDict [(lit "success", PBool true);
         (lit "message", PStr (lit "ok"));
         (lit "data", PDict [(lit "invoices", PList [inv_acme])]);
         (lit "speak", PStr (lit "Found 1 invoices matching acme."));
         (lit "cards",
          PList [PDict [(lit "title", PNone);
                        (lit "subtitle",
                         PStr (lit "#12 " ++ [8226%N] ++ lit " $40"));
                        (lit "metadata", inv_acme)]])].

(** * Properties *)

(** ** Strings *)

Lemma str_eqb_eq (a b : pystr) : str_eqb a b = true <-> a = b.
Proof.
  revert b; induction a as [|x a IH]; intros [|y b]; simpl; split;
    try discriminate; try reflexivity.
  - rewrite andb_true_iff, N.eqb_eq, IH. now intros [-> ->].
  - intros E; injection E as -> ->. now rewrite N.eqb_refl, (proj2 (IH b) eq_refl).
Qed.

Lemma str_eqb_refl (a : pystr) : str_eqb a a = true.
Proof. now apply str_eqb_eq. Qed.

Lemma contains_nil (t : pystr) : contains [] t = true.
Proof. destruct t; reflexivity. Qed.

Lemma isspace_cases (c : N) :
  isspace c = true ->
  (9 <= c <= 13 \/ 28 <= c <= 32 \/ c = 133 \/ c = 160 \/ 5760 <= c)%N.
Proof.
  unfold isspace.
  repeat match goal with
         | |- context [(?a <=? ?b)%N] => destruct (N.leb_spec a b)
         | |- context [(?a =? ?b)%N] => destruct (N.eqb_spec a b)
         end; simpl; try discriminate; lia.
Qed.

Lemma isspace_caseless (c : N) : isspace c = true -> lower_char c = Some c.
Proof.
  intros H. pose proof (isspace_cases c H) as Hc.
  unfold lower_char. rewrite H, orb_true_r.
  destruct (N.leb_spec 65 c), (N.leb_spec c 90), (N.leb_spec 192 c),
    (N.leb_spec c 222); simpl; try reflexivity; lia.
Qed.

Lemma lower_blank (ws : pystr) :
  forallb isspace ws = true -> lower_chars ws = Val ws.
Proof.
  induction ws as [|c ws IH]; simpl; [reflexivity|].
  intros H; apply andb_true_iff in H as [Hc Hws].
  now rewrite (isspace_caseless c Hc), (IH Hws).
Qed.

Lemma lstrip_blank (ws : pystr) : forallb isspace ws = true -> lstrip ws = [].
Proof.
  induction ws as [|c ws IH]; simpl; [reflexivity|].
  intros H; apply andb_true_iff in H as [Hc Hws]. now rewrite Hc, IH.
Qed.

Lemma normalize_blank (ws : pystr) :
  forallb isspace ws = true -> normalize (PStr ws) = Val [].
Proof.
  intros H; unfold normalize; simpl.
  rewrite (lower_blank ws H); simpl. unfold strip.
  now rewrite (lstrip_blank ws H).
Qed.

(** ** The resolver *)

(** C8.  An empty reference resolves to no invoice, whatever the
    candidate list is, and even where a tier would raise on it: no tier
    is run. *)
Theorem empty_reference_no_match (invoices_list : pyval) :
  find_invoice_by_spoken_local (PStr []) invoices_list = Val PNone.
Proof. reflexivity. Qed.

Lemma is_invoice_vendor (c : pyval) :
  is_invoice c = true ->
  exists v t, py_get c (lit "vendor") (PStr []) = Val (PStr v)
              /\ lower_chars v = Val t.
Proof.
  destruct c as [| | | | | |d]; try discriminate. unfold is_invoice.
  rewrite !andb_true_iff. intros [[[[[[[_ _] Hv] _] _] _] _] _].
  unfold opt_field in Hv. simpl. destruct (lookup (lit "vendor") d) as [v|].
  - destruct v as [| | | |s| |]; try discriminate. exists s.
    simpl in Hv. clear -Hv. induction s as [|c s IH]; simpl.
    + now exists [].
    + simpl in Hv. apply andb_true_iff in Hv as [Hc Hs].
      destruct (lower_char c) as [c'|]; [|discriminate].
      destruct (IH Hs) as [t [_ Ht]]. exists (c' :: t). split; [reflexivity|].
      now rewrite Ht.
  - exists [], []. split; reflexivity.
Qed.

(** C9.  A reference made of white space only (and not empty) resolves
    to the first candidate: it normalizes to the empty string, which no
    pattern matches and which tier 3 finds in the first candidate's
    vendor. *)
Theorem blank_reference_first_candidate (ws : pystr) (c : pyval) (rest : list pyval) :
  ws <> [] ->
  forallb isspace ws = true ->
  is_invoice c = true ->
  normalize (PStr ws) = Val []
  /\ tier3 [] (PList (c :: rest)) = Val (Some c)
  /\ find_invoice_by_spoken_local (PStr ws) (PList (c :: rest)) = Val c.
Proof.
  intros Hne Hws Hc.
  destruct (is_invoice_vendor c Hc) as [v [t [Hv Ht]]].
  assert (H3 : tier3 [] (PList (c :: rest)) = Val (Some c)).
  { unfold tier3; simpl. unfold tier3_cond, field_has.
    rewrite Hv; simpl. rewrite Ht; simpl. now rewrite contains_nil. }
  split; [now apply normalize_blank|]. split; [exact H3|].
  unfold find_invoice_by_spoken_local.
  destruct ws as [|w ws]; [contradiction|].
  change (truthy (PStr (w :: ws))) with true; cbv beta iota delta [negb].
  rewrite (normalize_blank _ Hws).
  change (tier1 [] (PList (c :: rest))) with (Val (@None pyval)).
  change (tier2 [] (PList (c :: rest))) with (Val (@None pyval)).
  unfold rbind at 1 2 3. now rewrite H3.
Qed.

(** *** What the two patterns capture *)

Lemma re_search_some (p : pystr -> option pystr) (s g : pystr) :
  re_search p s = Some g -> exists t, p t = Some g.
Proof.
  induction s as [|c s IH]; simpl.
  - destruct (p []) eqn:E; [|discriminate]. intros [= <-]. now exists [].
  - destruct (p (c :: s)) eqn:E.
    + intros [= <-]. now exists (c :: s).
    + exact IH.
Qed.

Lemma digit_run_digits (s : pystr) : forallb isdigit (digit_run s) = true.
Proof.
  induction s as [|c s IH]; simpl; [reflexivity|].
  destruct (isdigit c) eqn:E; simpl; [now rewrite E|reflexivity].
Qed.

Lemma forallb_firstn {A} (f : A -> bool) (n : nat) (l : list A) :
  forallb f l = true -> forallb f (firstn n l) = true.
Proof.
  revert l; induction n as [|n IH]; intros [|x l]; simpl; try reflexivity.
  rewrite !andb_true_iff. intros [Hx Hl]. split; [exact Hx|now apply IH].
Qed.

Lemma digits_2_6_sid (s sid : pystr) : digits_2_6 s = Some sid -> is_sid sid.
Proof.
  unfold digits_2_6, is_sid.
  destruct (Nat.ltb_spec (length (digit_run s)) 2) as [|Hlen]; [discriminate|].
  intros E. assert (E' : sid = firstn 6 (digit_run s)) by congruence.
  rewrite E'. split.
  - apply forallb_firstn, digit_run_digits.
  - rewrite length_firstn. lia.
Qed.

Lemma match_inv_sid (s sid : pystr) : match_inv s = Some sid -> is_sid sid.
Proof.
  unfold match_inv. intros H.
  repeat match type of H with
         | context [match ?x with _ => _ end] => destruct x eqn:?
         end;
    try discriminate; try (injection H as H; subst); eauto using digits_2_6_sid.
Qed.

Lemma search_inv_sid (s sid : pystr) :
  re_search match_inv s = Some sid -> is_sid sid.
Proof.
  intros H. apply re_search_some in H as [t Ht]. eauto using match_inv_sid.
Qed.

Lemma search_digits_sid (s sid : pystr) :
  re_search digits_2_6 s = Some sid -> is_sid sid.
Proof.
  intros H. apply re_search_some in H as [t Ht]. eauto using digits_2_6_sid.
Qed.

Lemma sid_not_None (sid : pystr) : is_sid sid -> str_eqb (lit "None") sid = false.
Proof.
  intros [Hd Hl]. destruct sid as [|c sid]; [simpl in Hl; lia|].
  simpl in Hd. apply andb_true_iff in Hd as [Hc _].
  unfold isdigit in Hc. apply andb_true_iff in Hc as [_ Hc]. apply N.leb_le in Hc.
  change (str_eqb (lit "None") (c :: sid))
    with (N.eqb 78 c && str_eqb (lit "one") sid).
  destruct (N.eqb_spec 78 c); [lia|reflexivity].
Qed.

Lemma sid_not_in_empty (sid : pystr) : is_sid sid -> contains sid [] = false.
Proof.
  intros [_ Hl]. destruct sid; [simpl in Hl; lia|reflexivity].
Qed.

(** *** On invoices the loops' tests are the tiers' criteria *)

Lemma shortId_is_matches (sid : pystr) (c : pyval) :
  is_sid sid -> is_invoice c = true ->
  shortId_is sid c = Val (tier2_matches sid c).
Proof.
  intros Hsid. destruct c as [| | | | | |d]; try discriminate.
  unfold is_invoice. rewrite !andb_true_iff.
  intros [[[[[[[_ Hs] _] _] _] _] _] _].
  unfold shortId_is, tier2_matches, shortId_text, field, opt_field, py_get in *.
  destruct (lookup (lit "shortId") d) as [v|]; cbn [rbind].
  - destruct v; try discriminate; reflexivity.
  - cbn [py_str rbind]. now rewrite (sid_not_None sid Hsid).
Qed.

Lemma tier1_cond_matches (sid : pystr) (c : pyval) :
  is_sid sid -> is_invoice c = true ->
  tier1_cond sid c = Val (tier1_matches sid c).
Proof.
  intros Hsid Hc. unfold tier1_cond, tier1_matches.
  rewrite (shortId_is_matches sid c Hsid Hc). unfold tier2_matches; cbn [rbind].
  destruct (match shortId_text c with Some t => str_eqb t sid | None => false end);
    [reflexivity|]. cbn [orb].
  destruct c as [| | | | | |d]; try discriminate.
  revert Hc. unfold is_invoice. rewrite !andb_true_iff.
  intros [[[[[[[Hi _] _] _] _] _] _] _].
  unfold field, opt_field, py_get in *. cbn [rbind].
  destruct (lookup (lit "invoiceId") d) as [v|]; [|reflexivity].
  destruct v as [| | | |i| |]; try discriminate.
  destruct i as [|x i]; [|reflexivity].
  cbn [truthy py_contains]. now rewrite (sid_not_in_empty sid Hsid).
Qed.

Lemma first_match_find (cond : pyval -> res bool) (pred : pyval -> bool)
    (l : list pyval) :
  Forall (fun c => cond c = Val (pred c)) l ->
  first_match cond l = Val (find pred l).
Proof.
  induction 1 as [|c l Hc _ IH]; simpl; [reflexivity|].
  rewrite Hc; simpl. destruct (pred c); [reflexivity|exact IH].
Qed.

Lemma tier1_finds (s sid : pystr) (l : list pyval) :
  re_search match_inv s = Some sid ->
  Forall (fun c => is_invoice c = true) l ->
  tier1 s (PList l) = Val (find (tier1_matches sid) l).
Proof.
  intros Hs Hl. unfold tier1. rewrite Hs. simpl.
  apply first_match_find. eapply Forall_impl; [|exact Hl].
  intros c Hc. apply tier1_cond_matches; eauto using search_inv_sid.
Qed.

Lemma tier2_finds (s sid : pystr) (l : list pyval) :
  re_search digits_2_6 s = Some sid ->
  Forall (fun c => is_invoice c = true) l ->
  tier2 s (PList l) = Val (find (tier2_matches sid) l).
Proof.
  intros Hs Hl. unfold tier2. rewrite Hs. simpl.
  apply first_match_find. eapply Forall_impl; [|exact Hl].
  intros c Hc. apply shortId_is_matches; eauto using search_digits_sid.
Qed.

Lemma find_decompose {A} (p : A -> bool) (l : list A) (x : A) :
  find p l = Some x ->
  exists pre post, l = pre ++ x :: post /\ p x = true
                   /\ forallb (fun y => negb (p y)) pre = true.
Proof.
  induction l as [|y l IH]; simpl; [discriminate|].
  destruct (p y) eqn:E.
  - intros [= ->]. exists [], l. now split.
  - intros H. destruct (IH H) as [pre [post [-> [Hx Hpre]]]].
    exists (y :: pre), post. simpl. now rewrite E.
Qed.

(** C3, as the code has it.  When the reference holds the pattern of
    tier 1 and a candidate meets the tier's criterion ([shortId] equal to
    the captured digits, or the digits inside [invoiceId]), the resolver
    returns the first such candidate in input order, and tiers 2 to 4
    are not run. *)
Theorem tier1_hit_decides (ref : pyval) (s sid : pystr) (l : list pyval) (inv : pyval) :
  truthy ref = true ->
  normalize ref = Val s ->
  re_search match_inv s = Some sid ->
  Forall (fun c => is_invoice c = true) l ->
  find (tier1_matches sid) l = Some inv ->
  find_invoice_by_spoken_local ref (PList l) = Val inv
  /\ exists pre post, l = pre ++ inv :: post
       /\ tier1_matches sid inv = true
       /\ forallb (fun c => negb (tier1_matches sid c)) pre = true.
Proof.
  intros Ht Hn Hs Hl Hf. split; [|now apply find_decompose].
  unfold find_invoice_by_spoken_local. rewrite Ht, Hn. cbn [negb rbind].
  rewrite (tier1_finds s sid l Hs Hl), Hf. reflexivity.
Qed.

(** C3 as stated fails: "inv-99 largest" holds the pattern of tier 1,
    no candidate meets the tier's criterion, and the resolver goes on to
    tier 4, which returns the unpaid invoice. *)
Lemma tier1_pattern_falls_through :
  normalize (PStr (lit "inv-99 largest")) = Val (lit "inv-99 largest")
  /\ re_search match_inv (lit "inv-99 largest") = Some (lit "99")
  /\ is_invoice inv_acme = true
  /\ tier1 (lit "inv-99 largest") (PList [inv_acme]) = Val None
  /\ tier2 (lit "inv-99 largest") (PList [inv_acme]) = Val None
  /\ tier3 (lit "inv-99 largest") (PList [inv_acme]) = Val None
  /\ tier4 (lit "inv-99 largest") (PList [inv_acme]) = Val inv_acme
  /\ find_invoice_by_spoken_local (PStr (lit "inv-99 largest")) (PList [inv_acme])
     = Val inv_acme.
Proof. repeat split; vm_compute; reflexivity. Qed.

(** C6.  "pay 99" against the candidates with [shortId] "99" and "099"
    resolves to the one whose [shortId] is "99", in either order of the
    list; and on invoices tier 2 returns the first candidate in list
    order whose [shortId] equals the captured digits, whatever their
    other attributes are. *)
Theorem pay_99_exact_shortId :
  re_search match_inv (lit "pay 99") = None
  /\ re_search digits_2_6 (lit "pay 99") = Some (lit "99")
  /\ find_invoice_by_spoken_local (PStr (lit "pay 99")) (PList [cand_99; cand_099])
     = Val cand_99
  /\ find_invoice_by_spoken_local (PStr (lit "pay 99")) (PList [cand_099; cand_99])
     = Val cand_99
  /\ forall (s sid : pystr) (l : list pyval),
       re_search digits_2_6 s = Some sid ->
       Forall (fun c => is_invoice c = true) l ->
       tier2 s (PList l) = Val (find (tier2_matches sid) l).
Proof.
  repeat split; try (vm_compute; reflexivity).
  intros s sid l Hs Hl. now apply tier2_finds.
Qed.

(** ** The stable sort and its first item *)

Section FirstOfSorted.
Context {A : Type}.
Variable ltb : skey -> skey -> bool.
(** The keys at hand, on which [ltb] is a strict weak order. *)
Variable dom : skey -> Prop.
Hypothesis ltb_asym : forall a b, dom a -> dom b -> ltb a b = true -> ltb b a = false.
Hypothesis ltb_cotrans : forall a b c, dom a -> dom b -> dom c ->
  ltb a c = true -> ltb a b = true \/ ltb b c = true.

Lemma In_insert (x y : skey * A) (l : list (skey * A)) :
  In y (insert ltb x l) <-> y = x \/ In y l.
Proof.
  induction l as [|z l IH]; simpl; [intuition|].
  destruct (ltb (fst z) (fst x)); simpl; rewrite ?IH; intuition.
Qed.

Lemma In_stable_sort (y : skey * A) (l : list (skey * A)) :
  In y (stable_sort ltb l) <-> In y l.
Proof.
  induction l as [|x l IH]; simpl; [tauto|].
  rewrite In_insert, IH. intuition.
Qed.

Lemma insert_not_nil (x : skey * A) (l : list (skey * A)) : insert ltb x l <> [].
Proof. destruct l as [|z l]; simpl; [|destruct (ltb (fst z) (fst x))]; discriminate. Qed.

Lemma last_insert (x d : skey * A) (l : list (skey * A)) :
  last (insert ltb x l) d =
  if forallb (fun y => ltb (fst y) (fst x)) l then x else last l d.
Proof.
  induction l as [|z l IH]; [reflexivity|].
  cbn [insert forallb]. destruct (ltb (fst z) (fst x)); cbn [andb]; [|reflexivity].
  change (last (z :: insert ltb x l) d)
    with (match insert ltb x l with [] => z | _ :: _ => last (insert ltb x l) d end).
  pose proof (insert_not_nil x l) as Hne.
  destruct (insert ltb x l) as [|w l'] eqn:E; [contradiction|].
  rewrite IH. destruct l as [|z' l'']; [reflexivity|].
  destruct (forallb _ (z' :: l'')); reflexivity.
Qed.

Lemma last_stable_sort (l : list (skey * A)) (d : skey * A) :
  l <> [] -> Forall (fun y => dom (fst y)) l ->
  last_pick ltb l (last (stable_sort ltb l) d).
Proof.
  induction l as [|a l IH]; [contradiction|]. intros _ Hdom.
  inversion Hdom as [|? ? Ha Hl]; subst.
  cbn [stable_sort fold_right]. fold (stable_sort ltb l).
  rewrite last_insert.
  destruct (forallb (fun y => ltb (fst y) (fst a)) (stable_sort ltb l)) eqn:E.
  - exists [], l. split; [reflexivity|]. split; [intros y []|].
    intros y Hy. rewrite forallb_forall in E. apply E. now apply In_stable_sort.
  - destruct l as [|b l']; [discriminate|].
    destruct (IH ltac:(discriminate) Hl) as [pre [post [Hsplit [Hpre Hpost]]]].
    set (x := last (stable_sort ltb (b :: l')) d) in *.
    assert (Hx : In x (b :: l')) by (rewrite Hsplit; apply in_elt).
    assert (Dx : dom (fst x)) by (rewrite Forall_forall in Hl; now apply Hl).
    exists (a :: pre), post. split; [now rewrite Hsplit|]. split; [|exact Hpost].
    intros y [<-|Hy]; [|now apply Hpre].
    destruct (ltb (fst x) (fst a)) eqn:Exa; [|reflexivity]. exfalso.
    assert (Hex : exists y0, In y0 (stable_sort ltb (b :: l'))
                             /\ ltb (fst y0) (fst a) = false).
    { clear -E. induction (stable_sort ltb (b :: l')) as [|z s IHs];
        [discriminate|]. simpl in E.
      destruct (ltb (fst z) (fst a)) eqn:Ez.
      - destruct (IHs E) as [y0 [H1 H2]]. exists y0. split; [now right|exact H2].
      - exists z. split; [now left|exact Ez]. }
    destruct Hex as [y0 [Hy0 Hy0a]].
    assert (Hy0s : In y0 (b :: l')) by now apply In_stable_sort.
    assert (Dy : dom (fst y0)) by (rewrite Forall_forall in Hl; now apply Hl).
    destruct (ltb_cotrans (fst x) (fst y0) (fst a) Dx Dy Ha Exa) as [H|H];
      [|congruence].
    rewrite Hsplit in Hy0s. apply in_app_or in Hy0s as [Hin|[<-|Hin]].
    + rewrite (Hpre y0 Hin) in H. discriminate.
    + rewrite (ltb_asym _ _ Dx Dx H) in H. discriminate.
    + specialize (Hpost y0 Hin).
      rewrite (ltb_asym _ _ Dx Dy H) in Hpost. discriminate.
Qed.
End FirstOfSorted.

(** ** Tier 4 on the amounts *)

Lemma Qltb_lt (a b : Q) : Qltb a b = true <-> (a < b)%Q.
Proof.
  unfold Qltb. rewrite negb_true_iff, <- not_true_iff_false, Qle_bool_iff.
  split; [apply Qnot_le_lt|apply Qlt_not_le].
Qed.

Lemma Qltb_ge (a b : Q) : Qltb a b = false <-> (b <= a)%Q.
Proof. unfold Qltb. now rewrite negb_false_iff, Qle_bool_iff. Qed.

Lemma num_ltb_asym (a b : skey) :
  is_num_key a -> is_num_key b -> skey_ltb a b = true -> skey_ltb b a = false.
Proof.
  intros [x ->] [y ->]; simpl. rewrite Qltb_lt, Qltb_ge. apply Qlt_le_weak.
Qed.

Lemma num_ltb_cotrans (a b c : skey) :
  is_num_key a -> is_num_key b -> is_num_key c ->
  skey_ltb a c = true -> skey_ltb a b = true \/ skey_ltb b c = true.
Proof.
  intros [x ->] [y ->] [z ->]; simpl. rewrite !Qltb_lt. intros H.
  destruct (Qlt_le_dec x y) as [Hxy|Hyx]; [now left|right].
  eapply Qle_lt_trans; eassumption.
Qed.

Lemma mapM_map {A B} (f : A -> res B) (g : A -> B) (l : list A) :
  Forall (fun x => f x = Val (g x)) l -> mapM f l = Val (map g l).
Proof.
  induction 1 as [|x l Hx _ IH]; simpl; [reflexivity|]. now rewrite Hx, IH.
Qed.

Lemma filterM_filter (keep : pyval -> res bool) (p : pyval -> bool) (l : list pyval) :
  Forall (fun c => keep c = Val (p c)) l -> filterM keep l = Val (filter p l).
Proof.
  induction 1 as [|c l Hc _ IH]; simpl; [reflexivity|]. rewrite Hc, IH. reflexivity.
Qed.

Lemma is_unpaid_flag (c : pyval) :
  is_invoice c = true -> is_unpaid c = Val (negb (paid_flag c)).
Proof.
  destruct c as [| | | | | |d]; try discriminate. intros _.
  unfold is_unpaid, paid_flag, field, py_get. cbn [rbind].
  destruct (lookup (lit "paid") d); reflexivity.
Qed.

Lemma amount_key_num (c : pyval) :
  amount_of c <> None -> amount_key c = Val (SNum (amount c)).
Proof.
  unfold amount, amount_of, amount_key, field, py_getitem.
  destruct c as [| | | | | |d]; try congruence.
  destruct (lookup (lit "amount") d) as [v|]; [|congruence].
  destruct v; try congruence; reflexivity.
Qed.

Lemma combine_map_self {A B} (f : A -> B) (l : list A) :
  combine (map f l) l = map (fun x => (f x, x)) l.
Proof. induction l as [|x l IH]; simpl; [reflexivity|now rewrite IH]. Qed.

Lemma first_of_reversed {A} (s : list (A * pyval)) (d : A * pyval) :
  s <> [] -> first_item (map snd (rev s)) = Val (snd (last s d)).
Proof.
  intros Hs. destruct (exists_last Hs) as [s' [x ->]].
  rewrite rev_app_distr, last_last. reflexivity.
Qed.

(** Which unpaid invoice [sorted(not_paid, key=amount, reverse=True)[0]]
    is. *)
Lemma largest_first (np : list pyval) :
  np <> [] ->
  (forall c, In c np -> amount_of c <> None) ->
  exists pre r post,
    np = pre ++ r :: post
    /\ (forall y, In y pre -> (amount y < amount r)%Q)
    /\ (forall y, In y post -> (amount y <= amount r)%Q)
    /\ (l <- py_sorted amount_key true np ;; first_item l) = Val r.
Proof.
  intros Hne Ham. unfold py_sorted.
  rewrite (mapM_map amount_key (fun c => SNum (amount c)) np)
    by (apply Forall_forall; intros c Hc; now apply amount_key_num, Ham).
  cbn [rbind].
  destruct np as [|c1 [|c2 np']]; [contradiction| |].
  - exists [], c1, []. repeat split; try (intros y []). 
  - set (np := c1 :: c2 :: np') in *.
    change (map (fun c => SNum (amount c)) np)
      with (SNum (amount c1) :: SNum (amount c2) :: map (fun c => SNum (amount c)) np').
    assert (Hcls : forallb (same_class (SNum (amount c1)))
                     (SNum (amount c1) :: SNum (amount c2)
                      :: map (fun c => SNum (amount c)) np') = true).
    { cbn [forallb same_class andb]. clear. induction np'; simpl; auto. }
    cbv beta iota. rewrite Hcls.
    change (SNum (amount c1) :: SNum (amount c2) :: map (fun c => SNum (amount c)) np')
      with (map (fun c => SNum (amount c)) np).
    rewrite combine_map_self. cbn [rbind sort_decorated].
    set (dl := map (fun c => (SNum (amount c), c)) np).
    assert (Hdl : rev dl <> []).
    { intros E. apply (f_equal (@length _)) in E.
      rewrite length_rev in E. discriminate. }
    assert (Hs : stable_sort skey_ltb (rev dl) <> []).
    { intros E. destruct (rev dl) as [|y t] eqn:Er; [contradiction|].
      assert (Hin : In y (stable_sort skey_ltb (y :: t)))
        by (apply In_stable_sort; now left).
      rewrite E in Hin. destruct Hin. }
    rewrite (first_of_reversed _ (SOther, PNone) Hs).
    assert (Hdom : Forall (fun y => is_num_key (fst y)) (rev dl)).
    { apply Forall_forall. intros y Hy. apply in_rev in Hy.
      apply in_map_iff in Hy as [c [<- _]]. now exists (amount c). }
    destruct (last_stable_sort skey_ltb is_num_key num_ltb_asym num_ltb_cotrans
                (rev dl) (SOther, PNone) Hdl Hdom)
      as [pre' [post' [Hsplit [Hpre Hpost]]]].
    set (x := last (stable_sort skey_ltb (rev dl)) (SOther, PNone)) in *.
    assert (Hshape : forall y, In y dl -> fst y = SNum (amount (snd y))).
    { intros y Hy. apply in_map_iff in Hy as [c [<- _]]. reflexivity. }
    assert (Hdl' : dl = rev post' ++ x :: rev pre').
    { rewrite <- (rev_involutive dl), Hsplit, rev_app_distr. simpl.
      now rewrite <- app_assoc. }
    assert (Hnp : np = map snd dl).
    { unfold dl. rewrite map_map. simpl. now rewrite map_id. }
    assert (Hx : In x dl) by (rewrite Hdl'; apply in_elt).
    exists (map snd (rev post')), (snd x), (map snd (rev pre')).
    split; [now rewrite Hnp, Hdl', map_app|].
    split; [|split; [|reflexivity]].
    + intros y Hy. apply in_map_iff in Hy as [y' [<- Hy']].
      apply in_rev in Hy'. specialize (Hpost y' Hy').
      rewrite (Hshape y'), (Hshape x Hx) in Hpost.
      * now apply Qltb_lt.
      * rewrite Hdl'. apply in_or_app. left. now apply in_rev in Hy'.
    + intros y Hy. apply in_map_iff in Hy as [y' [<- Hy']].
      apply in_rev in Hy'. specialize (Hpre y' Hy').
      rewrite (Hshape y'), (Hshape x Hx) in Hpre.
      * now apply Qltb_ge.
      * rewrite Hdl'. apply in_or_app. right. right. now apply in_rev in Hy'.
Qed.

Lemma tier4_largest (s : pystr) (l : list pyval) :
  Forall (fun c => is_invoice c = true) l ->
  names_largest s = true ->
  names_a_date s = false ->
  tier4 s (PList l) =
  match unpaid l with
  | [] => Val PNone
  | _ :: _ => l' <- py_sorted amount_key true (unpaid l) ;; first_item l'
  end.
Proof.
  intros Hl Hbig Hdate. unfold tier4. cbn [py_iter rbind].
  rewrite (filterM_filter is_unpaid (fun c => negb (paid_flag c)) l)
    by (eapply Forall_impl; [|exact Hl]; intros c Hc; now apply is_unpaid_flag).
  cbn [rbind]. fold (unpaid l). destruct (unpaid l) as [|c np]; [reflexivity|].
  unfold names_a_date in Hdate. unfold names_largest in Hbig.
  destruct (contains (lit "last") s), (contains (lit "latest") s),
    (contains (lit "most recent") s), (contains (lit "oldest") s),
    (contains (lit "earliest") s); try discriminate.
  cbn [orb]. now rewrite Hbig.
Qed.

(** C4, as the code has it.  For a reference that misses tiers 1 to 3,
    names the largest ('largest', 'biggest' or 'highest') and holds none
    of the keywords that tier 4 tries first ('last', 'latest',
    'most recent', 'oldest', 'earliest'): with every candidate paid the
    result is no invoice; otherwise it is the unpaid candidate of
    maximum amount, the earliest one in input order among equals. *)
Theorem largest_unpaid_first (ref : pyval) (s : pystr) (l : list pyval) :
  truthy ref = true ->
  normalize ref = Val s ->
  Forall (fun c => is_invoice c = true) l ->
  tier1 s (PList l) = Val None ->
  tier2 s (PList l) = Val None ->
  tier3 s (PList l) = Val None ->
  names_largest s = true ->
  names_a_date s = false ->
  (forall c, In c (unpaid l) -> amount_of c <> None) ->
  (unpaid l = [] -> find_invoice_by_spoken_local ref (PList l) = Val PNone)
  /\ (unpaid l <> [] ->
      exists pre r post,
        unpaid l = pre ++ r :: post
        /\ (forall y, In y pre -> (amount y < amount r)%Q)
        /\ (forall y, In y post -> (amount y <= amount r)%Q)
        /\ find_invoice_by_spoken_local ref (PList l) = Val r).
Proof.
  intros Ht Hn Hl H1 H2 H3 Hbig Hdate Ham.
  assert (E : find_invoice_by_spoken_local ref (PList l) = tier4 s (PList l)).
  { unfold find_invoice_by_spoken_local. rewrite Ht, Hn. cbn [negb rbind].
    now rewrite H1, H2, H3. }
  rewrite E, (tier4_largest s l Hl Hbig Hdate). split.
  - now intros ->.
  - intros Hne. destruct (largest_first (unpaid l) Hne Ham)
      as [pre [r [post [Hs [Hpre [Hpost Hr]]]]]].
    exists pre, r, post. repeat split; try assumption.
    destruct (unpaid l); [contradiction|exact Hr].
Qed.

(** C4 as stated fails: "oldest largest" misses tiers 1 to 3 and names
    the largest, yet tier 4 meets 'oldest' first and returns the unpaid
    invoice that is due first, whose amount is the smaller one. *)
Lemma largest_after_oldest :
  normalize (PStr (lit "oldest largest")) = Val (lit "oldest largest")
  /\ tier1 (lit "oldest largest") (PList [inv_big_late; inv_small_early]) = Val None
  /\ tier2 (lit "oldest largest") (PList [inv_big_late; inv_small_early]) = Val None
  /\ tier3 (lit "oldest largest") (PList [inv_big_late; inv_small_early]) = Val None
  /\ names_largest (lit "oldest largest") = true
  /\ unpaid [inv_big_late; inv_small_early] = [inv_big_late; inv_small_early]
  /\ (amount inv_small_early < amount inv_big_late)%Q
  /\ find_invoice_by_spoken_local (PStr (lit "oldest largest"))
       (PList [inv_big_late; inv_small_early]) = Val inv_small_early.
Proof. repeat split; vm_compute; reflexivity. Qed.

(** ** Running programs *)

Lemma run_try_except {A B} (m : io A) (h : exn -> io B) (k : A -> io B)
    (env : backend) (hist : list request) :
  run (try_except m h k) env hist =
  let '(tr, o) := run m env hist in
  let hist' := rev (map fst tr) ++ hist in
  let '(tr', o') :=
    match o with
    | Val a => run (k a) env hist'
    | Exc e => run (h e) env hist'
    | Beyond => ([], Beyond)
    end in
  (tr ++ tr', o').
Proof.
  revert hist. induction m as [a|e| |rq c IH]; intros hist; cbn [try_except run].
  - cbn. now destruct (run (k a) env hist).
  - cbn. now destruct (run (h e) env hist).
  - reflexivity.
  - rewrite IH. destruct (run (c (env hist rq)) env (rq :: hist)) as [tr o].
    cbn [map fst rev]. rewrite <- app_assoc. cbn [app].
    destruct o; [destruct (run (k a) _ _)|destruct (run (h e) _ _)|]; reflexivity.
Qed.

Lemma run_lift {A} (r : res A) env hist : run (lift r) env hist = ([], r).
Proof. destruct r; reflexivity. Qed.

Lemma run_backend_get B path params env hist :
  run (backend_get B path params) env hist =
  let rq := HttpGet (B ++ path) params REQUEST_TIMEOUT in
  ([(rq, env hist rq)], backend_result (lit "backend_get error: ") (env hist rq)).
Proof.
  unfold backend_get, send, iobind, backend_result, raise_for_status, response_json.
  cbn [try_except run].
  destruct (env hist _) as [msg|r]; cbn [try_except run reraise]; [reflexivity|].
  destruct ((400 <=? status_code r) && (status_code r <? 600));
    cbn [try_except run reraise]; [reflexivity|].
  destruct (decoded r); reflexivity.
Qed.

Lemma run_backend_post B path payload env hist :
  run (backend_post B path payload) env hist =
  let rq := HttpPost (B ++ path) payload REQUEST_TIMEOUT in
  ([(rq, env hist rq)], backend_result (lit "backend_post error: ") (env hist rq)).
Proof.
  unfold backend_post, send, iobind, backend_result, raise_for_status, response_json.
  cbn [try_except run].
  destruct (env hist _) as [msg|r]; cbn [try_except run reraise]; [reflexivity|].
  destruct ((400 <=? status_code r) && (status_code r <? 600));
    cbn [try_except run reraise]; [reflexivity|].
  destruct (decoded r); reflexivity.
Qed.

Lemma run_get_then {A} B path params (f : pyval -> res A) env hist :
  run (iobind (backend_get B path params) (fun x => lift (f x))) env hist =
  let rq := HttpGet (B ++ path) params REQUEST_TIMEOUT in
  ([(rq, env hist rq)],
   (x <- backend_result (lit "backend_get error: ") (env hist rq) ;; f x)).
Proof.
  unfold iobind. rewrite run_try_except, run_backend_get. cbn zeta.
  destruct (backend_result _ _) as [v|e|]; cbn [rbind run]; try reflexivity.
  now rewrite run_lift.
Qed.

Lemma run_post_then {A} B path payload (f : pyval -> res A) env hist :
  run (iobind (backend_post B path payload) (fun x => lift (f x))) env hist =
  let rq := HttpPost (B ++ path) payload REQUEST_TIMEOUT in
  ([(rq, env hist rq)],
   (x <- backend_result (lit "backend_post error: ") (env hist rq) ;; f x)).
Proof.
  unfold iobind. rewrite run_try_except, run_backend_post. cbn zeta.
  destruct (backend_result _ _) as [v|e|]; cbn [rbind run]; try reflexivity.
  now rewrite run_lift.
Qed.

Lemma run_fail_with prefix code e env hist :
  run (fail_with prefix code e) env hist =
  ([], (msg <- str_exn e ;; Val (assistant_err (prefix ++ msg) code))).
Proof. unfold fail_with. now destruct (str_exn e). Qed.

(** One stage: a guarded call, then the handler or the next stage. *)
Lemma run_guarded {A} (m : io A) (rq : request) (f : reply -> res A)
    prefix code (k : A -> io flask_response) env hist :
  (forall env hist, run m env hist = ([(rq, env hist rq)], f (env hist rq))) ->
  run (try_except m (fail_with prefix code) k) env hist =
  match f (env hist rq) with
  | Val a =>
      let '(tr, out) := run (k a) env (rq :: hist) in
      ((rq, env hist rq) :: tr, out)
  | Exc e =>
      ([(rq, env hist rq)],
       (msg <- str_exn e ;; Val (assistant_err (prefix ++ msg) code)))
  | Beyond => ([(rq, env hist rq)], Beyond)
  end.
Proof.
  intros Hm. rewrite run_try_except, Hm. cbn [map fst rev app].
  destruct (f (env hist rq)) as [a|e|]; [| |reflexivity].
  - now destruct (run (k a) env (rq :: hist)).
  - now rewrite run_fail_with.
Qed.

Lemma run_bind_lift {A C} (r : res A) (k : A -> io C) env hist :
  run (iobind (lift r) k) env hist =
  match r with
  | Val a => run (k a) env hist
  | Exc e => ([], Exc e)
  | Beyond => ([], Beyond)
  end.
Proof. now destruct r. Qed.

Lemma try_lift {A C D} (r : res A) (k' : A -> io C) (h : exn -> io D) (k : C -> io D) :
  try_except (iobind (lift r) k') h k =
  match r with
  | Val a => try_except (k' a) h k
  | Exc e => h e
  | Beyond => Lost
  end.
Proof. now destruct r. Qed.

Lemma run_pay_stage B i md sm mid env hist :
  run (pay_stage B i md sm mid) env hist =
  let rq := pay_request B (pay_payload i sm mid) in
  ([(rq, env hist rq)],
   match (v <- backend_result (lit "backend_post error: ") (env hist rq) ;;
          receipt_response i md v) with
   | Val r => Val r
   | Exc e => handled (lit "Payment failed: ") 502 e
   | Beyond => Beyond
   end).
Proof.
  unfold pay_stage, execute_payment.
  rewrite (run_guarded _ (pay_request B (pay_payload i sm mid))
             (fun rp => v <- backend_result (lit "backend_post error: ") rp ;;
                        receipt_response i md v))
    by (intros; apply run_post_then).
  cbn zeta. now destruct (rbind _ _).
Qed.

Lemma run_mandate_stage B user i invoice env hist :
  run (mandate_stage B user i invoice) env hist =
  match py_str i with
  | Val inv_s =>
      match py_get invoice (lit "amount") PNone with
      | Val amt =>
          let rq := mandate_request B
                      (cart_payload user i (lit "Pay invoice " ++ inv_s) amt) in
          match (v <- backend_result (lit "backend_post error: ") (env hist rq) ;;
                 mandate_in v) with
          | Val (md, sm, mid) =>
              let '(tr, out) := run (pay_stage B i md sm mid) env (rq :: hist) in
              ((rq, env hist rq) :: tr, out)
          | Exc e =>
              ([(rq, env hist rq)],
               handled (lit "Failed to create cart mandate: ") 502 e)
          | Beyond => ([(rq, env hist rq)], Beyond)
          end
      | Exc e => ([], Exc e)
      | Beyond => ([], Beyond)
      end
  | Exc e => ([], Exc e)
  | Beyond => ([], Beyond)
  end.
Proof.
  unfold mandate_stage. rewrite run_bind_lift.
  destruct (py_str i) as [inv_s| |]; try reflexivity.
  rewrite run_bind_lift.
  destruct (py_get invoice _ _) as [amt| |]; try reflexivity.
  unfold create_mandate.
  rewrite (run_guarded _ (mandate_request B
                            (cart_payload user i (lit "Pay invoice " ++ inv_s) amt))
             (fun rp => v <- backend_result (lit "backend_post error: ") rp ;;
                        mandate_in v))
    by (intros; apply run_post_then).
  cbn zeta. destruct (rbind _ _) as [[[md sm] mid]| |]; reflexivity.
Qed.

Lemma run_lookup_stage B user i env hist :
  run (lookup_stage B user i) env hist =
  match py_str i with
  | Val inv_s =>
      let rq := lookup_request B inv_s in
      match (v <- backend_result (lit "backend_get error: ") (env hist rq) ;;
             invoice_in v) with
      | Val (inl early) => ([(rq, env hist rq)], Val early)
      | Val (inr invoice) =>
          let '(tr, out) := run (mandate_stage B user i invoice) env (rq :: hist) in
          ((rq, env hist rq) :: tr, out)
      | Exc e =>
          ([(rq, env hist rq)], handled (lit "Invoice lookup failed: ") 404 e)
      | Beyond => ([(rq, env hist rq)], Beyond)
      end
  | Exc e => ([], handled (lit "Invoice lookup failed: ") 404 e)
  | Beyond => ([], Beyond)
  end.
Proof.
  unfold lookup_stage, lookup_invoice. rewrite try_lift.
  destruct (py_str i) as [inv_s|e|]; [|apply run_fail_with|reflexivity].
  rewrite (run_guarded _ (lookup_request B inv_s)
             (fun rp => v <- backend_result (lit "backend_get error: ") rp ;;
                        invoice_in v))
    by (intros; apply run_get_then).
  cbn zeta. destruct (rbind _ _) as [[early|invoice]| |]; reflexivity.
Qed.

Lemma run_resolve_stage B user i vref il env hist :
  run (resolve_stage B user i vref il) env hist =
  match resolve_voiceRef i vref il with
  | Val (inl early) => ([], Val early)
  | Val (inr i') =>
      if negb (truthy i')
      then ([], Val (assistant_err (lit "invoiceId or voiceRef required") 400))
      else run (lookup_stage B user i') env hist
  | Exc e => ([], Exc e)
  | Beyond => ([], Beyond)
  end.
Proof.
  unfold resolve_stage. rewrite run_bind_lift.
  destruct (resolve_voiceRef i vref il) as [[early|i']| |]; try reflexivity.
  now destruct (negb (truthy i')).
Qed.

Lemma run_agent_pay_invoice B rj env :
  run (agent_pay_invoice B rj) env [] =
  let body := py_or rj (PDict []) in
  match py_get body (lit "userId") PNone with
  | Val user =>
      let invoiceId := match py_get body (lit "invoiceId") PNone with
                       | Val v => v | _ => PNone end in
      let voiceRef := match py_get body (lit "voiceRef") PNone with
                      | Val v => v | _ => PNone end in
      if negb (truthy user)
      then ([], Val (assistant_err (lit "userId required") 400))
      else
        let rq := list_request B user in
        match (v <- backend_result (lit "backend_get error: ") (env [] rq) ;;
               invoices_in v) with
        | Val il =>
            let '(tr, out) := run (resolve_stage B user invoiceId voiceRef il) env [rq] in
            ((rq, env [] rq) :: tr, out)
        | Exc e =>
            ([(rq, env [] rq)], handled (lit "Could not fetch invoices: ") 502 e)
        | Beyond => ([(rq, env [] rq)], Beyond)
        end
  | Exc e => ([], Exc e)
  | Beyond => ([], Beyond)
  end.
Proof.
  unfold agent_pay_invoice. cbn zeta.
  destruct (py_or rj (PDict [])) as [| | | | | |d]; try reflexivity.
  cbn [py_get lift iobind try_except].
  destruct (negb (truthy _)); [reflexivity|].
  fold (iobind (A:=pyval) (B:=pyval)). unfold fetch_invoices.
  rewrite (run_guarded _ (list_request B _)
             (fun rp => v <- backend_result (lit "backend_get error: ") rp ;;
                        invoices_in v))
    by (intros; apply run_get_then).
  reflexivity.
Qed.

(** ** Failed calls *)

Lemma failure_result (prefix : pystr) (rp : reply) (msg : pystr) :
  failure rp = Some msg ->
  backend_result prefix rp = Exc (RuntimeError (prefix ++ msg)).
Proof.
  unfold failure, backend_result. destruct rp as [m|r]; [now intros [= ->]|].
  destruct ((400 <=? status_code r) && (status_code r <? 600)); [now intros [= ->]|].
  destruct (decoded r); [now intros [= ->]|discriminate].
Qed.

Lemma result_failure (prefix : pystr) (rp : reply) (v : pyval) :
  backend_result prefix rp = Val v -> failure rp = None.
Proof.
  unfold failure, backend_result. destruct rp as [m|r]; [discriminate|].
  destruct ((400 <=? status_code r) && (status_code r <? 600)); [discriminate|].
  destruct (decoded r); [discriminate|reflexivity].
Qed.

Lemma handled_failure (prefix wrapper msg : pystr) (code : Z) :
  handled prefix code (RuntimeError (wrapper ++ msg))
  = Val (assistant_err ((prefix ++ wrapper) ++ msg) code).
Proof. unfold handled; simpl. now rewrite app_assoc. Qed.

(** ** The stages in order *)

Lemma staged_nil B k out : staged B k [] out.
Proof. intros [|n] rq rp H; discriminate. Qed.

Lemma staged_cons B k rq rp tr out :
  stage_request B k rq ->
  (forall msg, failure rp = Some msg ->
     tr = [] /\ out = Val (assistant_err (stage_text k ++ msg) (stage_code k))) ->
  staged B (S k) tr out ->
  staged B k ((rq, rp) :: tr) out.
Proof.
  intros Hrq Hfail Htr [|n] rq' rp' H; simpl in H.
  - injection H as <- <-. rewrite Nat.add_0_r. split; [exact Hrq|].
    intros msg Hm. destruct (Hfail msg Hm) as [-> ->]. now split.
  - destruct (Htr n rq' rp' H) as [H1 H2].
    rewrite Nat.add_succ_r. split; [exact H1|].
    intros msg Hm. destruct (H2 msg Hm) as [Hlen ->]. simpl. now rewrite Hlen.
Qed.

(** One guarded call whose failure ends the attempt. *)
Ltac failed_call :=
  let msg := fresh "msg" in
  let Hm := fresh "Hm" in
  intros msg Hm;
  match goal with
  | E : rbind (backend_result ?p ?rp) _ = _ |- _ =>
      rewrite (failure_result p rp msg Hm) in E; cbn [rbind] in E;
      match type of E with
      | Exc ?x = Exc ?e => assert (He : e = x) by congruence; subst e
      end;
      split; [reflexivity|]; rewrite handled_failure; reflexivity
  end.

Ltac passed_call :=
  let msg := fresh "msg" in
  let Hm := fresh "Hm" in
  intros msg Hm;
  match goal with
  | E : rbind (backend_result ?p ?rp) _ = _ |- _ =>
      rewrite (failure_result p rp msg Hm) in E; cbn [rbind] in E; discriminate
  end.

Lemma staged_pay_stage B i md sm mid env hist :
  staged B 3 (fst (run (pay_stage B i md sm mid) env hist))
           (snd (run (pay_stage B i md sm mid) env hist)).
Proof.
  rewrite run_pay_stage. cbn [fst snd].
  apply staged_cons; [now eexists| |apply staged_nil].
  destruct (rbind _ _) eqn:E; first [failed_call|passed_call].
Qed.

Lemma staged_mandate_stage B user i invoice env hist :
  staged B 2 (fst (run (mandate_stage B user i invoice) env hist))
           (snd (run (mandate_stage B user i invoice) env hist)).
Proof.
  rewrite run_mandate_stage.
  destruct (py_str i) as [inv_s| |]; try apply staged_nil.
  destruct (py_get invoice _ _) as [amt| |]; try apply staged_nil.
  cbn zeta. destruct (rbind _ _) as [[[md sm] mid]|e|] eqn:E.
  - pose proof (staged_pay_stage B i md sm mid env
                  (mandate_request B
                     (cart_payload user i (lit "Pay invoice " ++ inv_s) amt) :: hist))
      as Hp.
    destruct (run (pay_stage B i md sm mid) env _) as [tr out]. cbn [fst snd] in *.
    apply staged_cons; [now eexists|passed_call|exact Hp].
  - cbn [fst snd]. apply staged_cons; [now eexists|failed_call|apply staged_nil].
  - cbn [fst snd]. apply staged_cons; [now eexists|passed_call|apply staged_nil].
Qed.

Lemma staged_lookup_stage B user i env hist :
  staged B 1 (fst (run (lookup_stage B user i) env hist))
           (snd (run (lookup_stage B user i) env hist)).
Proof.
  rewrite run_lookup_stage.
  destruct (py_str i) as [inv_s| |]; try apply staged_nil.
  cbn zeta. destruct (rbind _ _) as [[early|invoice]|e|] eqn:E.
  - cbn [fst snd]. apply staged_cons; [now eexists|passed_call|apply staged_nil].
  - pose proof (staged_mandate_stage B user i invoice env
                  (lookup_request B inv_s :: hist)) as Hp.
    destruct (run (mandate_stage B user i invoice) env _) as [tr out].
    cbn [fst snd] in *.
    apply staged_cons; [now eexists|passed_call|exact Hp].
  - cbn [fst snd]. apply staged_cons; [now eexists|failed_call|apply staged_nil].
  - cbn [fst snd]. apply staged_cons; [now eexists|passed_call|apply staged_nil].
Qed.

Lemma staged_resolve_stage B user i vref il env hist :
  staged B 1 (fst (run (resolve_stage B user i vref il) env hist))
           (snd (run (resolve_stage B user i vref il) env hist)).
Proof.
  rewrite run_resolve_stage.
  destruct (resolve_voiceRef i vref il) as [[early|i']| |]; try apply staged_nil.
  destruct (negb (truthy i')); [apply staged_nil|apply staged_lookup_stage].
Qed.

(** The calls of a payment attempt are those of the four stages, in
    order; a call that fails is the last one, and the response is the
    failure of its stage. *)
Lemma staged_agent_pay_invoice B rj env :
  staged B 0 (fst (run (agent_pay_invoice B rj) env []))
           (snd (run (agent_pay_invoice B rj) env [])).
Proof.
  rewrite run_agent_pay_invoice. cbn zeta.
  destruct (py_get _ _ _) as [user| |]; try apply staged_nil.
  destruct (negb (truthy user)); [apply staged_nil|].
  destruct (rbind _ _) as [il|e|] eqn:E.
  - match goal with
    | |- context [run (resolve_stage B user ?i ?v il) env ?h] =>
        pose proof (staged_resolve_stage B user i v il env h) as Hp;
        destruct (run (resolve_stage B user i v il) env h) as [tr out]
    end.
    cbn [fst snd] in *.
    apply staged_cons; [now eexists|passed_call|exact Hp].
  - cbn [fst snd]. apply staged_cons; [now eexists|failed_call|apply staged_nil].
  - cbn [fst snd]. apply staged_cons; [now eexists|passed_call|apply staged_nil].
Qed.

Lemma stage_of_mandate B n payload :
  stage_request B n (mandate_request B payload) -> n = 2%nat.
Proof.
  destruct n as [|[|[|[|n]]]]; simpl; try tauto; intros [x H]; try discriminate.
  injection H as H _. apply app_inv_head in H. discriminate.
Qed.

Lemma stage_of_pay B n payload :
  stage_request B n (pay_request B payload) -> n = 3%nat.
Proof.
  destruct n as [|[|[|[|n]]]]; simpl; try tauto; intros [x H]; try discriminate.
  injection H as H _. apply app_inv_head in H. discriminate.
Qed.

(** C1.  In a payment attempt where the invoice lookup is answered
    without failure and the call that creates the mandate fails, no
    request is made to /api/pay, and the response is the failure of the
    mandate stage, with status 502. *)
Theorem mandate_failure_halts B rj env tr out inv_s rp1 payload rp2 msg :
  run (agent_pay_invoice B rj) env [] = (tr, out) ->
  In (lookup_request B inv_s, rp1) tr ->
  failure rp1 = None ->
  In (mandate_request B payload, rp2) tr ->
  failure rp2 = Some msg ->
  (forall rq rp, In (rq, rp) tr -> ~ is_pay_request B rq)
  /\ out = Val (assistant_err
                 (lit "Failed to create cart mandate: " ++ lit "backend_post error: "
                  ++ msg) 502).
Proof.
  intros Hrun _ _ Hin Hfail.
  pose proof (staged_agent_pay_invoice B rj env) as Hst.
  rewrite Hrun in Hst. cbn [fst snd] in Hst.
  apply In_nth_error in Hin as [n Hn].
  destruct (Hst n _ _ Hn) as [Hrq Hend]. cbn [Nat.add] in Hrq.
  apply stage_of_mandate in Hrq. subst n.
  destruct (Hend msg Hfail) as [Hlen ->]. split.
  - intros rq rp Hin [p ->]. apply In_nth_error in Hin as [m Hm].
    destruct (Hst m _ _ Hm) as [Hrq _]. cbn [Nat.add] in Hrq.
    apply stage_of_pay in Hrq. subst m.
    assert (3 < length tr)%nat by (apply nth_error_Some; congruence). lia.
  - cbn [Nat.add stage_text stage_code]. now rewrite <- app_assoc.
Qed.

(** C10.  With a [userId] in the request, the first call is the fetch
    of the user's invoices, whatever else the request holds; if that
    call fails, it is the only call and the response is the failure of
    the fetch, with status 502. *)
Theorem list_fetch_comes_first B rj env user :
  py_get (py_or rj (PDict [])) (lit "userId") PNone = Val user ->
  truthy user = true ->
  exists rest out,
    run (agent_pay_invoice B rj) env []
    = ((list_request B user, env [] (list_request B user)) :: rest, out)
    /\ forall msg,
         failure (env [] (list_request B user)) = Some msg ->
         rest = []
         /\ out = Val (assistant_err
                        (lit "Could not fetch invoices: " ++ lit "backend_get error: "
                         ++ msg) 502).
Proof.
  intros Hu Ht. rewrite run_agent_pay_invoice. cbn zeta. rewrite Hu, Ht. cbn [negb].
  destruct (rbind _ _) as [il|e|] eqn:E.
  - destruct (run (resolve_stage _ _ _ _ _) _ _) as [tr out].
    exists tr, out. split; [reflexivity|]. passed_call.
  - eexists _, _. split; [reflexivity|]. intros msg Hm.
    rewrite (failure_result _ _ msg Hm) in E. cbn [rbind] in E.
    assert (He : e = RuntimeError (lit "backend_get error: " ++ msg)) by congruence.
    subst e. split; [reflexivity|]. unfold handled. cbn [str_exn rbind].
    reflexivity.
  - eexists _, _. split; [reflexivity|]. passed_call.
Qed.


(** ** Where status 404 comes from *)


Lemma receipt_response_200 i md v x :
  receipt_response i md v = Val x -> snd x = 200.
Proof.
  unfold receipt_response. intros H.
  repeat match type of H with
         | rbind ?m _ = Val _ => destruct m; cbn [rbind] in H; try discriminate
         end.
  now injection H as <-.
Qed.









Lemma invoice_in_early v early :
  invoice_in v = Val (inl early) ->
  early = assistant_err (lit "Invoice not found") 404.
Proof.
  unfold invoice_in. intros H.
  repeat match type of H with
         | rbind ?m _ = Val _ => destruct m; cbn [rbind] in H; try discriminate
         end.
  destruct (negb (truthy _)); congruence.
Qed.


Lemma resolve_voiceRef_early i vref il early :
  resolve_voiceRef i vref il = Val (inl early) ->
  early = assistant_err
            (lit "I couldn't find an invoice matching that description") 404.
Proof.
  unfold resolve_voiceRef. destruct (truthy vref && negb (truthy i)); [|discriminate].
  destruct (find_invoice_by_spoken_local vref il) as [inv| |]; cbn [rbind];
    try discriminate.
  destruct (negb (truthy inv)); [congruence|].
  destruct (py_get inv _ _); cbn [rbind]; discriminate.
Qed.




(** ** The body of the mandate request *)

Lemma lookup_then_mandate B user i env hist tr out rq1 rp1 v d :
  run (lookup_stage B user i) env hist = (tr, out) ->
  nth_error tr 0 = Some (rq1, rp1) ->
  backend_result (lit "backend_get error: ") rp1 = Val v ->
  invoice_in v = Val (inr (PDict d)) ->
  exists inv_s rp2,
    py_str i = Val inv_s
    /\ rq1 = lookup_request B inv_s
    /\ nth_error tr 1
       = Some (mandate_request B
                 (cart_payload user i (lit "Pay invoice " ++ inv_s)
                    (dict_get d (lit "amount"))), rp2).
Proof.
  rewrite run_lookup_stage.
  destruct (py_str i) as [inv_s|e|] eqn:Ei; try (intros [= <- _]; discriminate).
  cbn zeta. intros Hrun Hn Hv Hinv.
  assert (E : rq1 = lookup_request B inv_s
              /\ rp1 = env hist (lookup_request B inv_s)).
  { destruct (rbind _ _) as [[early|invoice]|e|];
      try destruct (run (mandate_stage _ _ _ _) _ _);
      injection Hrun as <- _; injection Hn as <- <-; now split. }
  destruct E as [-> ->]. rewrite Hv in Hrun. cbn [rbind] in Hrun.
  rewrite Hinv in Hrun. rewrite run_mandate_stage, Ei in Hrun.
  exists inv_s. cbn [py_get] in Hrun. fold (dict_get d (lit "amount")) in Hrun.
  cbn zeta in Hrun.
  destruct (rbind _ _) as [[[md sm] mid]|e|];
    try destruct (run (pay_stage _ _ _ _ _) _ _);
    injection Hrun as <- _; eexists; repeat split; reflexivity.
Qed.

Lemma resolve_given i vref il r :
  truthy i = true -> resolve_voiceRef i vref il = Val (inr r) -> r = i.
Proof.
  unfold resolve_voiceRef. intros ->. rewrite andb_false_r. congruence.
Qed.

(** C7.  Whenever the lookup of a payment attempt is answered with an
    invoice, the next call is the POST to /api/mandates, and its body is
    exactly [userId], [type] "Cart", [action] "Pay invoice <invoiceId>",
    [amountLimit] the amount of the invoice that the lookup returned, and
    [invoiceId]; the identifier is the one the lookup was made for, and
    the one of the request when the request gives one. *)
Theorem cart_mandate_body B rj env tr out rq1 rp1 v d :
  run (agent_pay_invoice B rj) env [] = (tr, out) ->
  nth_error tr 1 = Some (rq1, rp1) ->
  backend_result (lit "backend_get error: ") rp1 = Val v ->
  invoice_in v = Val (inr (PDict d)) ->
  exists user i inv_s rp2,
    py_get (py_or rj (PDict [])) (lit "userId") PNone = Val user
    /\ py_str i = Val inv_s
    /\ rq1 = lookup_request B inv_s
    /\ (forall given,
          py_get (py_or rj (PDict [])) (lit "invoiceId") PNone = Val given ->
          truthy given = true -> i = given)
    /\ nth_error tr 2
       = Some (mandate_request B
                 (PDict [(lit "userId", user);
                         (lit "type", PStr (lit "Cart"));
                         (lit "action", PStr (lit "Pay invoice " ++ inv_s));
                         (lit "amountLimit", dict_get d (lit "amount"));
                         (lit "invoiceId", i)]), rp2).
Proof.
  rewrite run_agent_pay_invoice. cbn zeta. intros Hrun Hn Hv Hinv.
  destruct (py_get _ (lit "userId") _) as [user| |];
    try (injection Hrun as <- _; discriminate).
  destruct (negb (truthy user)); [injection Hrun as <- _; discriminate|].
  destruct (rbind _ _) as [il|e|];
    try (injection Hrun as <- _; discriminate).
  rewrite run_resolve_stage in Hrun.
  set (iid := match py_get _ (lit "invoiceId") _ with Val x => x | _ => PNone end) in *.
  set (vref := match py_get _ (lit "voiceRef") _ with Val x => x | _ => PNone end) in *.
  destruct (resolve_voiceRef iid vref il) as [[early|i]| |] eqn:Er;
    try (injection Hrun as <- _; discriminate).
  destruct (negb (truthy i)); [injection Hrun as <- _; discriminate|].
  destruct (run (lookup_stage B user i) env _) as [tr' out'] eqn:El.
  injection Hrun as <- <-. cbn [nth_error] in Hn.
  destruct (lookup_then_mandate _ _ _ _ _ _ _ _ _ _ _ El Hn Hv Hinv)
    as [inv_s [rp2 [Hs [Hrq Hm]]]].
  exists user, i, inv_s, rp2. repeat split; try assumption.
  intros given Hg Ht. subst iid. rewrite Hg in Er.
  now apply (resolve_given given vref il i Ht).
Qed.

(** ** The claims that fail, on sample runs *)



(** ** The theorems at work on sample inputs *)

Lemma mandate_failure_halts_sample :
  (forall rq rp,
     In (rq, rp) (fst (run (agent_pay_invoice demo_url body_direct) env_mandate_down []))
     -> ~ is_pay_request demo_url rq)
  /\ snd (run (agent_pay_invoice demo_url body_direct) env_mandate_down [])
     = Val (assistant_err
              (lit "Failed to create cart mandate: " ++ lit "backend_post error: "
               ++ lit "timed out") 502).
Proof.
  apply (mandate_failure_halts demo_url body_direct env_mandate_down _ _
           (lit "INV-9") (ok_reply invoice_json)
           (cart_payload (PStr (lit "u1")) (PStr (lit "INV-9"))
              (lit "Pay invoice INV-9") (PInt 42))
           (Failed (lit "timed out")) (lit "timed out")).
  - apply surjective_pairing.
  - vm_compute. right; left; reflexivity.
  - reflexivity.
  - vm_compute. right; right; left; reflexivity.
  - reflexivity.
Defined.

Lemma list_fetch_comes_first_sample :
  exists rest out,
    run (agent_pay_invoice demo_url body_direct) env_lookup_down []
    = ((list_request demo_url (PStr (lit "u1")),
        env_lookup_down [] (list_request demo_url (PStr (lit "u1")))) :: rest, out).
Proof.
  destruct (list_fetch_comes_first demo_url body_direct env_lookup_down
              (PStr (lit "u1")) eq_refl eq_refl) as [rest [out [H _]]].
  exists rest, out. exact H.
Defined.



Lemma cart_mandate_body_sample :
  exists user i inv_s rp2,
    py_str i = Val inv_s
    /\ nth_error (fst (run (agent_pay_invoice demo_url body_direct) env_mandate_down [])) 2
       = Some (mandate_request demo_url
                 (PDict [(lit "userId", user);
                         (lit "type", PStr (lit "Cart"));
                         (lit "action", PStr (lit "Pay invoice " ++ inv_s));
                         (lit "amountLimit", PInt 42);
                         (lit "invoiceId", i)]), rp2).
Proof.
  destruct (cart_mandate_body demo_url body_direct env_mandate_down _ _
              (lookup_request demo_url (lit "INV-9")) (ok_reply invoice_json)
              invoice_json
              [(lit "invoiceId", PStr (lit "INV-9")); (lit "amount", PInt 42)]
              (surjective_pairing _))
    as [user [i [inv_s [rp2 [_ [Hs [_ [_ Hm]]]]]]]].
  - vm_compute; reflexivity.
  - reflexivity.
  - reflexivity.
  - exists user, i, inv_s, rp2. split; [exact Hs|exact Hm].
Defined.

Lemma blank_reference_sample :
  find_invoice_by_spoken_local (PStr (lit "   ")) (PList [inv_acme; inv_big_late])
  = Val inv_acme.
Proof.
  apply (blank_reference_first_candidate (lit "   ") inv_acme [inv_big_late]).
  - discriminate.
  - reflexivity.
  - reflexivity.
Defined.

Lemma tier1_hit_sample :
  find_invoice_by_spoken_local (PStr (lit "Pay INV-31 now"))
    (PList [inv_acme; inv_big_late; inv_small_early]) = Val inv_big_late.
Proof.
  apply (tier1_hit_decides (PStr (lit "Pay INV-31 now")) (lit "pay inv-31 now")
           (lit "31") [inv_acme; inv_big_late; inv_small_early] inv_big_late).
  - reflexivity.
  - vm_compute; reflexivity.
  - vm_compute; reflexivity.
  - repeat constructor.
  - vm_compute; reflexivity.
Defined.

Lemma largest_unpaid_sample :
  exists pre r post,
    unpaid [inv_small_early; inv_big_late; inv_acme] = pre ++ r :: post
    /\ (forall y, In y pre -> (amount y < amount r)%Q)
    /\ (forall y, In y post -> (amount y <= amount r)%Q)
    /\ find_invoice_by_spoken_local (PStr (lit "the biggest one"))
         (PList [inv_small_early; inv_big_late; inv_acme]) = Val r.
Proof.
  apply (largest_unpaid_first (PStr (lit "the biggest one")) (lit "the biggest one")
           [inv_small_early; inv_big_late; inv_acme]).
  - reflexivity.
  - vm_compute; reflexivity.
  - repeat constructor.
  - vm_compute; reflexivity.
  - vm_compute; reflexivity.
  - vm_compute; reflexivity.
  - vm_compute; reflexivity.
  - vm_compute; reflexivity.
  - intros c Hc. vm_compute in Hc.
    destruct Hc as [<-|[<-|[<-|[]]]]; discriminate.
  - discriminate.
Defined.

(** * Further properties *)

(** ** The backend wrappers *)

(** [backend_get] makes one request, to [BACKEND + path] with the
    [params] it is given and the timeout of 8 seconds.  It returns the
    decoded body when the call goes through, the status is not an error
    one and the body is JSON; in every other case it raises
    [RuntimeError] with "backend_get error: " and the cause, and nothing
    else. *)
Theorem backend_get_contract B path params env hist :
  exists rp out,
    run (backend_get B path params) env hist
    = ([(HttpGet (B ++ path) params 8, rp)], out)
    /\ (forall msg, failure rp = Some msg ->
          out = Exc (RuntimeError (lit "backend_get error: " ++ msg)))
    /\ (failure rp = None ->
          exists r v, rp = Answered r /\ decoded r = inr v /\ out = Val v).
Proof.
  rewrite run_backend_get. cbn zeta. eexists _, _. split; [reflexivity|]. split.
  - intros msg Hm. now apply failure_result.
  - unfold failure, backend_result.
    destruct (env hist _) as [m|r]; [discriminate|].
    destruct ((400 <=? status_code r) && (status_code r <? 600)); [discriminate|].
    destruct (decoded r) as [m|v] eqn:E; [discriminate|]. intros _.
    now exists r, v.
Qed.

(** The same for [backend_post], with the payload as JSON body. *)
Theorem backend_post_contract B path payload env hist :
  exists rp out,
    run (backend_post B path payload) env hist
    = ([(HttpPost (B ++ path) payload 8, rp)], out)
    /\ (forall msg, failure rp = Some msg ->
          out = Exc (RuntimeError (lit "backend_post error: " ++ msg)))
    /\ (failure rp = None ->
          exists r v, rp = Answered r /\ decoded r = inr v /\ out = Val v).
Proof.
  rewrite run_backend_post. cbn zeta. eexists _, _. split; [reflexivity|]. split.
  - intros msg Hm. now apply failure_result.
  - unfold failure, backend_result.
    destruct (env hist _) as [m|r]; [discriminate|].
    destruct ((400 <=? status_code r) && (status_code r <? 600)); [discriminate|].
    destruct (decoded r) as [m|v] eqn:E; [discriminate|]. intros _.
    now exists r, v.
Qed.

(** ** /agent/pay *)

(** Without a [userId] (absent, null or empty) the request is refused
    with status 400 and no call is made to the backend. *)
Theorem pay_requires_userId B rj env hist d :
  py_or rj (PDict []) = PDict d ->
  truthy (dict_get d (lit "userId")) = false ->
  run (agent_pay_invoice B rj) env hist
  = ([], Val (assistant_err (lit "userId required") 400)).
Proof.
  intros Hd Hu. unfold agent_pay_invoice. cbn zeta. rewrite Hd.
  cbn [py_get lift iobind try_except]. fold (dict_get d (lit "userId")).
  now rewrite Hu.
Qed.

(** A JSON body that is not an object (a non-empty array or string, a
    number, [true]) makes the handler raise [AttributeError] before any
    call: the error is not caught. *)
Theorem pay_body_not_object B rj env hist :
  truthy rj = true ->
  is_dict rj = false ->
  run (agent_pay_invoice B rj) env hist
  = ([], Exc (AttributeError (type_name rj) (lit "get"))).
Proof.
  intros Ht Hd. unfold agent_pay_invoice, py_or. cbn zeta. rewrite Ht.
  destruct rj; try discriminate; reflexivity.
Qed.

(** A payment attempt makes at most four calls, and the call in
    position [n] is the one of stage [n]: the fetch of the invoices, the
    lookup, the mandate, the payment. *)
Theorem pay_calls_in_order B rj env tr out :
  run (agent_pay_invoice B rj) env [] = (tr, out) ->
  (length tr <= 4)%nat
  /\ forall n rq rp, nth_error tr n = Some (rq, rp) -> stage_request B n rq.
Proof.
  intros Hrun. pose proof (staged_agent_pay_invoice B rj env) as Hst.
  rewrite Hrun in Hst. cbn [fst snd] in Hst.
  assert (H : forall n rq rp, nth_error tr n = Some (rq, rp) -> stage_request B n rq).
  { intros n rq rp Hn. now destruct (Hst n rq rp Hn). }
  split; [|exact H].
  destruct (Nat.le_gt_cases (length tr) 4) as [Hle|Hgt]; [exact Hle|].
  destruct (nth_error tr 4) as [[rq rp]|] eqn:E.
  - destruct (H 4%nat rq rp E).
  - apply nth_error_None in E. lia.
Qed.

Lemma handled_code prefix code e x : handled prefix code e = Val x -> snd x = code.
Proof.
  unfold handled. destruct (str_exn e); cbn [rbind]; try discriminate.
  now intros [= <-].
Qed.

Lemma response_ok_error n tr m code :
  code = 400 \/ code = 404 \/ code = 502 ->
  response_ok n tr (Val (assistant_err m code)).
Proof.
  intros Hc body c [= <- <-]. split; [tauto|]. intros ->.
  destruct Hc as [|[|]]; discriminate.
Qed.

Lemma response_ok_handled n tr prefix code e :
  code = 404 \/ code = 502 ->
  response_ok n tr (handled prefix code e).
Proof.
  intros Hc body c H. apply handled_code in H. cbn [snd] in H. subst c.
  split; [tauto|]. intros ->. destruct Hc; discriminate.
Qed.

Lemma response_ok_raise n tr e : response_ok n tr (Exc e).
Proof. intros body c [=]. Qed.

Lemma response_ok_beyond n tr : response_ok n tr Beyond.
Proof. intros body c [=]. Qed.

Lemma response_ok_cons n rq rp tr out v prefix :
  backend_result prefix rp = Val v ->
  response_ok n tr out -> response_ok (S n) ((rq, rp) :: tr) out.
Proof.
  intros Hv Htr body c H. destruct (Htr body c H) as [H1 H2]. split; [exact H1|].
  intros Hc. destruct (H2 Hc) as [Hlen Hall]. split; [simpl; now rewrite Hlen|].
  constructor; [|exact Hall]. cbn [snd]. eapply result_failure; eassumption.
Qed.

Lemma bind_result {A} prefix rp (f : pyval -> res A) (a : A) :
  (v <- backend_result prefix rp ;; f v) = Val a ->
  exists v, backend_result prefix rp = Val v /\ f v = Val a.
Proof.
  destruct (backend_result prefix rp) as [v| |]; cbn [rbind]; try discriminate.
  intros H. now exists v.
Qed.

Lemma response_ok_pay_stage B i md sm mid env hist :
  response_ok 1 (fst (run (pay_stage B i md sm mid) env hist))
              (snd (run (pay_stage B i md sm mid) env hist)).
Proof.
  rewrite run_pay_stage. cbn [fst snd].
  destruct (rbind _ _) as [x|e|] eqn:E.
  - apply bind_result in E as [v [Hv Hx]].
    intros body c [= ->]. apply receipt_response_200 in Hx. cbn [snd] in Hx.
    subst c. split; [tauto|]. intros _. split; [reflexivity|].
    constructor; [|constructor]. cbn [snd]. eapply result_failure; eassumption.
  - apply response_ok_handled. tauto.
  - apply response_ok_beyond.
Qed.

Lemma response_ok_mandate_stage B user i invoice env hist :
  response_ok 2 (fst (run (mandate_stage B user i invoice) env hist))
              (snd (run (mandate_stage B user i invoice) env hist)).
Proof.
  rewrite run_mandate_stage.
  destruct (py_str i) as [inv_s| |];
    [|apply response_ok_raise|apply response_ok_beyond].
  destruct (py_get invoice _ _) as [amt| |];
    [|apply response_ok_raise|apply response_ok_beyond].
  cbn zeta. destruct (rbind _ _) as [[[md sm] mid]|e|] eqn:E.
  - apply bind_result in E as [v [Hv _]].
    pose proof (response_ok_pay_stage B i md sm mid env
                  (mandate_request B
                     (cart_payload user i (lit "Pay invoice " ++ inv_s) amt) :: hist))
      as Hp.
    destruct (run (pay_stage B i md sm mid) env _) as [tr out]. cbn [fst snd] in *.
    eapply response_ok_cons; eassumption.
  - apply response_ok_handled. tauto.
  - apply response_ok_beyond.
Qed.

Lemma response_ok_lookup_stage B user i env hist :
  response_ok 3 (fst (run (lookup_stage B user i) env hist))
              (snd (run (lookup_stage B user i) env hist)).
Proof.
  rewrite run_lookup_stage.
  destruct (py_str i) as [inv_s|e|];
    [|apply response_ok_handled; tauto|apply response_ok_beyond].
  cbn zeta. destruct (rbind _ _) as [[early|invoice]|e|] eqn:E.
  - apply bind_result in E as [v [Hv Hx]]. apply invoice_in_early in Hx.
    subst early. apply response_ok_error. tauto.
  - apply bind_result in E as [v [Hv _]].
    pose proof (response_ok_mandate_stage B user i invoice env
                  (lookup_request B inv_s :: hist)) as Hp.
    destruct (run (mandate_stage B user i invoice) env _) as [tr out].
    cbn [fst snd] in *. eapply response_ok_cons; eassumption.
  - apply response_ok_handled. tauto.
  - apply response_ok_beyond.
Qed.

Lemma response_ok_resolve_stage B user i vref il env hist :
  response_ok 3 (fst (run (resolve_stage B user i vref il) env hist))
              (snd (run (resolve_stage B user i vref il) env hist)).
Proof.
  rewrite run_resolve_stage.
  destruct (resolve_voiceRef i vref il) as [[early|i']| |] eqn:E;
    [| |apply response_ok_raise|apply response_ok_beyond].
  - apply resolve_voiceRef_early in E. subst early. apply response_ok_error. tauto.
  - destruct (negb (truthy i'));
      [apply response_ok_error; tauto|apply response_ok_lookup_stage].
Qed.

(** The status of the response to /agent/pay is 200, 400, 404 or 502;
    and it is 200 only after all four calls were made and none of them
    failed. *)
Theorem pay_status_codes B rj env tr out body code :
  run (agent_pay_invoice B rj) env [] = (tr, out) ->
  out = Val (body, code) ->
  (code = 200 \/ code = 400 \/ code = 404 \/ code = 502)
  /\ (code = 200 ->
      length tr = 4%nat /\ Forall (fun ev => failure (snd ev) = None) tr).
Proof.
  intros Hrun. revert body code.
  change (response_ok 4 tr out).
  replace tr with (fst (run (agent_pay_invoice B rj) env [])) by now rewrite Hrun.
  replace out with (snd (run (agent_pay_invoice B rj) env [])) by now rewrite Hrun.
  clear Hrun. rewrite run_agent_pay_invoice. cbn zeta.
  destruct (py_get _ _ _) as [user| |];
    [|apply response_ok_raise|apply response_ok_beyond].
  destruct (negb (truthy user)); [apply response_ok_error; tauto|].
  destruct (rbind _ _) as [il|e|] eqn:E.
  - apply bind_result in E as [v [Hv _]].
    match goal with
    | |- context [run (resolve_stage B user ?i ?vr il) env ?h] =>
        pose proof (response_ok_resolve_stage B user i vr il env h) as Hp;
        destruct (run (resolve_stage B user i vr il) env h) as [tr' out']
    end.
    cbn [fst snd] in *. eapply response_ok_cons; eassumption.
  - apply response_ok_handled. tauto.
  - apply response_ok_beyond.
Qed.

Lemma mandate_then_pay B user i invoice env hist tr out rq2 rp2 rq3 rp3 :
  run (mandate_stage B user i invoice) env hist = (tr, out) ->
  nth_error tr 0 = Some (rq2, rp2) ->
  nth_error tr 1 = Some (rq3, rp3) ->
  exists v md sm mid action amt,
    backend_result (lit "backend_post error: ") rp2 = Val v
    /\ mandate_in v = Val (md, sm, mid)
    /\ rq2 = mandate_request B (cart_payload user i action amt)
    /\ rq3 = pay_request B
               (PDict [(lit "mandateId", mid);
                       (lit "signedMandate", sm);
                       (lit "invoiceId", i);
                       (lit "paymentMethod", PStr (lit "agent-demo-card"))]).
Proof.
  rewrite run_mandate_stage.
  destruct (py_str i) as [inv_s| |]; try (intros [= <- _]; discriminate).
  destruct (py_get invoice _ _) as [amt| |]; try (intros [= <- _]; discriminate).
  cbn zeta. destruct (rbind _ _) as [[[md sm] mid]|e|] eqn:E;
    try (intros [= <- _] _; discriminate).
  rewrite run_pay_stage. cbn zeta. intros [= <- _] [= <- <-] [= <- <-].
  apply bind_result in E as [v [Hv Hm]].
  exists v, md, sm, mid, (lit "Pay invoice " ++ inv_s), amt. now repeat split.
Qed.

(** The payment request carries the [mandateId] and the [signedMandate]
    that the mandate call returned, the [invoiceId] the mandate was asked
    for, and the payment method "agent-demo-card". *)
Theorem payment_uses_the_mandate B rj env tr out rq2 rp2 rq3 rp3 :
  run (agent_pay_invoice B rj) env [] = (tr, out) ->
  nth_error tr 2 = Some (rq2, rp2) ->
  nth_error tr 3 = Some (rq3, rp3) ->
  exists v md sm mid user i action amt,
    backend_result (lit "backend_post error: ") rp2 = Val v
    /\ mandate_in v = Val (md, sm, mid)
    /\ rq2 = mandate_request B
               (PDict [(lit "userId", user);
                       (lit "type", PStr (lit "Cart"));
                       (lit "action", PStr action);
                       (lit "amountLimit", amt);
                       (lit "invoiceId", i)])
    /\ rq3 = pay_request B
               (PDict [(lit "mandateId", mid);
                       (lit "signedMandate", sm);
                       (lit "invoiceId", i);
                       (lit "paymentMethod", PStr (lit "agent-demo-card"))]).
Proof.
  rewrite run_agent_pay_invoice. cbn zeta. intros Hrun H2 H3.
  destruct (py_get _ (lit "userId") _) as [user| |];
    try (injection Hrun as <- _; discriminate).
  destruct (negb (truthy user)); [injection Hrun as <- _; discriminate|].
  destruct (rbind _ _) as [il|e|];
    try (injection Hrun as <- _; discriminate).
  rewrite run_resolve_stage in Hrun.
  destruct (resolve_voiceRef _ _ il) as [[early|i]| |];
    try (injection Hrun as <- _; discriminate).
  destruct (negb (truthy i)); [injection Hrun as <- _; discriminate|].
  rewrite run_lookup_stage in Hrun.
  destruct (py_str i) as [inv_s| |]; try (injection Hrun as <- _; discriminate).
  cbn zeta in Hrun.
  destruct (rbind _ _) as [[early|invoice]|e|];
    try (injection Hrun as <- _; discriminate).
  destruct (run (mandate_stage B user i invoice) env _) as [tr' out'] eqn:Em.
  injection Hrun as <- <-. cbn [nth_error] in H2, H3.
  destruct (mandate_then_pay _ _ _ _ _ _ _ _ _ _ _ _ Em H2 H3)
    as [v [md [sm [mid [action [amt [Hv [Hm [Hq2 Hq3]]]]]]]]].
  exists v, md, sm, mid, user, i, action, amt. now repeat split.
Qed.

(** With a [userId], a [voiceRef] and no [invoiceId]: when the resolver
    finds no invoice among the user's invoices, the response is 404 and
    the fetch of the invoices is the only call. *)
Theorem unresolved_reference_404 B rj env d v il inv :
  py_or rj (PDict []) = PDict d ->
  truthy (dict_get d (lit "userId")) = true ->
  truthy (dict_get d (lit "invoiceId")) = false ->
  truthy (dict_get d (lit "voiceRef")) = true ->
  backend_result (lit "backend_get error: ")
    (env [] (list_request B (dict_get d (lit "userId")))) = Val v ->
  invoices_in v = Val il ->
  find_invoice_by_spoken_local (dict_get d (lit "voiceRef")) il = Val inv ->
  truthy inv = false ->
  run (agent_pay_invoice B rj) env []
  = ([(list_request B (dict_get d (lit "userId")),
       env [] (list_request B (dict_get d (lit "userId"))))],
     Val (assistant_err
            (lit "I couldn't find an invoice matching that description") 404)).
Proof.
  intros Hd Hu Hi Hv Hr Hil Hf Hinv. rewrite run_agent_pay_invoice. cbn zeta.
  rewrite Hd. cbn [py_get].
  fold (dict_get d (lit "userId")) (dict_get d (lit "invoiceId"))
    (dict_get d (lit "voiceRef")).
  rewrite Hu. cbn [negb]. rewrite Hr. cbn [rbind]. rewrite Hil.
  rewrite run_resolve_stage. unfold resolve_voiceRef.
  rewrite Hv, Hi. cbn [negb andb]. rewrite Hf. cbn [rbind]. rewrite Hinv.
  reflexivity.
Qed.

(** An [invoiceId] in the request wins over a [voiceRef]: two requests
    with the same [userId] and the same [invoiceId] run alike, whatever
    else they hold. *)
Theorem invoiceId_wins B d d' env :
  dict_get d (lit "userId") = dict_get d' (lit "userId") ->
  dict_get d (lit "invoiceId") = dict_get d' (lit "invoiceId") ->
  truthy (dict_get d (lit "invoiceId")) = true ->
  run (agent_pay_invoice B (PDict d)) env []
  = run (agent_pay_invoice B (PDict d')) env [].
Proof.
  intros Hu Hi Ht.
  assert (Hor : forall e, py_or (PDict e) (PDict []) = PDict e).
  { intros [|x e]; reflexivity. }
  rewrite !run_agent_pay_invoice. cbn zeta. rewrite !Hor. cbn [py_get].
  fold (dict_get d (lit "userId")) (dict_get d (lit "invoiceId"))
    (dict_get d (lit "voiceRef")) (dict_get d' (lit "userId"))
    (dict_get d' (lit "invoiceId")) (dict_get d' (lit "voiceRef")).
  rewrite <- Hu, <- Hi.
  destruct (negb (truthy (dict_get d (lit "userId")))); [reflexivity|].
  destruct (rbind _ _) as [il| |]; try reflexivity.
  rewrite !run_resolve_stage. unfold resolve_voiceRef. rewrite Ht.
  now rewrite !andb_false_r.
Qed.

(** ** The routes of one call *)

Lemma run_get_route B path params (f : pyval -> res flask_response)
    prefix env hist :
  run (try_except (iobind (backend_get B path params) (fun x => lift (f x)))
         (fail_with prefix 502) Ret) env hist =
  let rq := HttpGet (B ++ path) params REQUEST_TIMEOUT in
  ([(rq, env hist rq)],
   match (v <- backend_result (lit "backend_get error: ") (env hist rq) ;; f v) with
   | Val r => Val r
   | Exc e => handled prefix 502 e
   | Beyond => Beyond
   end).
Proof.
  rewrite (run_guarded _ (HttpGet (B ++ path) params REQUEST_TIMEOUT)
             (fun rp => v <- backend_result (lit "backend_get error: ") rp ;; f v))
    by (intros; apply run_get_then).
  cbn zeta. now destruct (rbind _ _).
Qed.

Lemma run_post_route B path payload (f : pyval -> res flask_response)
    prefix env hist :
  run (try_except (iobind (backend_post B path payload) (fun x => lift (f x)))
         (fail_with prefix 502) Ret) env hist =
  let rq := HttpPost (B ++ path) payload REQUEST_TIMEOUT in
  ([(rq, env hist rq)],
   match (v <- backend_result (lit "backend_post error: ") (env hist rq) ;; f v) with
   | Val r => Val r
   | Exc e => handled prefix 502 e
   | Beyond => Beyond
   end).
Proof.
  rewrite (run_guarded _ (HttpPost (B ++ path) payload REQUEST_TIMEOUT)
             (fun rp => v <- backend_result (lit "backend_post error: ") rp ;; f v))
    by (intros; apply run_post_then).
  cbn zeta. now destruct (rbind _ _).
Qed.

Lemma strip_blank (ws : pystr) : forallb isspace ws = true -> strip ws = [].
Proof. intros H. unfold strip. now rewrite (lstrip_blank ws H). Qed.

(** /agent/search without a query (no [q], or white space only) is
    refused with status 400, and no call is made to the backend. *)
Theorem search_requires_query B args env hist :
  forallb isspace (arg (lit "q") args) = true ->
  run (agent_search B args) env hist
  = ([], Val (assistant_err (lit "query 'q' required") 400)).
Proof. intros H. unfold agent_search. cbn zeta. now rewrite (strip_blank _ H). Qed.

Lemma failed_route prefix wrapper rp (f : pyval -> res flask_response) msg :
  failure rp = Some msg ->
  match (v <- backend_result wrapper rp ;; f v) with
  | Val r => Val r
  | Exc e => handled prefix 502 e
  | Beyond => Beyond
  end = Val (assistant_err (prefix ++ wrapper ++ msg) 502).
Proof.
  intros Hm. rewrite (failure_result wrapper rp msg Hm). cbn [rbind].
  rewrite handled_failure. now rewrite <- app_assoc.
Qed.

(** /agent/search with a query makes exactly one call: the GET of
    /api/invoices whose [q] is the query without the white space around
    it, and whose [userId] and [category] are there exactly when the
    request gives them (not blank).  When the call fails the response is
    "Search failed: ..." with status 502. *)
Theorem search_makes_one_call B args env hist q :
  strip (arg (lit "q") args) = q ->
  q <> [] ->
  exists params rp out,
    run (agent_search B args) env hist
    = ([(HttpGet (B ++ lit "/api/invoices") (PDict params) 8, rp)], out)
    /\ lookup (lit "q") params = Some (PStr q)
    /\ lookup (lit "userId") params
       = match strip (arg (lit "userId") args) with
         | [] => None
         | u => Some (PStr u)
         end
    /\ lookup (lit "category") params
       = match strip (arg (lit "category") args) with
         | [] => None
         | c => Some (PStr c)
         end
    /\ (forall msg, failure rp = Some msg ->
          out = Val (assistant_err
                       (lit "Search failed: " ++ lit "backend_get error: " ++ msg)
                       502)).
Proof.
  intros Hq Hne. unfold agent_search. cbn zeta. rewrite Hq.
  destruct q as [|c q]; [contradiction|].
  rewrite run_get_route. cbn zeta. unfold search_params.
  eexists _, _, _. split; [reflexivity|].
  repeat split.
  - destruct (strip (arg (lit "userId") args)),
      (strip (arg (lit "category") args)); reflexivity.
  - destruct (strip (arg (lit "userId") args)),
      (strip (arg (lit "category") args)); reflexivity.
  - destruct (strip (arg (lit "userId") args)),
      (strip (arg (lit "category") args)); reflexivity.
  - intros msg Hm. now apply failed_route.
Qed.

(** /agent/intent without a [userId] is refused with status 400, and no
    call is made to the backend. *)
Theorem intent_requires_userId B rj env hist d :
  py_or rj (PDict []) = PDict d ->
  truthy (dict_get d (lit "userId")) = false ->
  run (agent_create_intent B rj) env hist
  = ([], Val (assistant_err (lit "userId required") 400)).
Proof.
  intros Hd Hu. unfold agent_create_intent. cbn zeta. rewrite Hd.
  cbn [py_get lift iobind try_except]. fold (dict_get d (lit "userId")).
  now rewrite Hu.
Qed.

(** /agent/intent with a [userId] makes exactly one call, the POST of an
    Intent mandate to /api/mandates: [action] is the one of the request
    or "autopay" when there is none, [amountLimit] is the one of the
    request or 0 when it is absent, null or zero, and [invoiceId] is
    null.  When the call fails the response is "Failed to create intent:
    ..." with status 502. *)
Theorem intent_makes_one_call B rj env hist d :
  py_or rj (PDict []) = PDict d ->
  truthy (dict_get d (lit "userId")) = true ->
  exists rp out,
    run (agent_create_intent B rj) env hist
    = ([(HttpPost (B ++ lit "/api/mandates")
           (PDict [(lit "userId", dict_get d (lit "userId"));
                   (lit "type", PStr (lit "Intent"));
                   (lit "action",
                    match lookup (lit "action") d with
                    | Some a => a
                    | None => PStr (lit "autopay")
                    end);
                   (lit "amountLimit",
                    if truthy (dict_get d (lit "amountLimit"))
                    then dict_get d (lit "amountLimit") else PInt 0);
                   (lit "invoiceId", PNone)]) 8, rp)], out)
    /\ (forall msg, failure rp = Some msg ->
          out = Val (assistant_err
                       (lit "Failed to create intent: " ++ lit "backend_post error: "
                        ++ msg) 502)).
Proof.
  intros Hd Hu. unfold agent_create_intent. cbn zeta. rewrite Hd.
  cbn [py_get lift iobind try_except]. fold (dict_get d (lit "userId")).
  rewrite Hu. cbn [negb].
  fold (iobind (A:=pyval) (B:=flask_response)).
  rewrite run_post_route. cbn zeta.
  eexists _, _. split; [reflexivity|].
  intros msg Hm. now apply failed_route.
Qed.

(** When the call goes through, the response to /agent/intent is the
    success envelope with the message "Intent created", the speech
    "Intent created for <action>", the [data] of the backend's answer
    and no cards. *)
Theorem intent_created B rj env hist d action_s ans data :
  py_or rj (PDict []) = PDict d ->
  truthy (dict_get d (lit "userId")) = true ->
  py_str (match lookup (lit "action") d with
          | Some a => a
          | None => PStr (lit "autopay")
          end) = Val action_s ->
  backend_result (lit "backend_post error: ")
    (env hist (HttpPost (B ++ lit "/api/mandates")
                 (intent_payload (dict_get d (lit "userId"))
                    (match lookup (lit "action") d with
                     | Some a => a
                     | None => PStr (lit "autopay")
                     end)
                    (dict_get d (lit "amountLimit"))) 8)) = Val (PDict ans) ->
  ans <> [] ->
  dict_get ans (lit "data") = data ->
  snd (run (agent_create_intent B rj) env hist)
  = Val (PDict [(lit "success", PBool true);
                (lit "message", PStr (lit "Intent created"));
                (lit "data", if truthy data then data else PDict []);
                (lit "speak", PStr (lit "Intent created for " ++ action_s));
                (lit "cards", PList [])], 200).
Proof.
  intros Hd Hu Ha Hr Hne Hdata. unfold agent_create_intent. cbn zeta. rewrite Hd.
  cbn [py_get lift iobind try_except]. fold (dict_get d (lit "userId")).
  rewrite Hu. cbn [negb].
  fold (iobind (A:=pyval) (B:=flask_response)).
  rewrite run_post_route. cbn zeta. cbn [snd].
  fold (dict_get d (lit "amountLimit")).
  change REQUEST_TIMEOUT with 8. rewrite Hr. cbn [rbind].
  unfold intent_response. destruct ans as [|kv ans]; [contradiction|].
  cbn [truthy py_get rbind]. fold (dict_get (kv :: ans) (lit "data")).
  rewrite Hdata, Ha. cbn [rbind]. unfold assistant_ok, py_or.
  destruct action_s; reflexivity.
Qed.

(** /agent/invoices/<user_id> always makes exactly one call, the GET of
    /api/invoices; [q] and [category] are passed on without the white
    space around them when they are not blank, and [userId] when it is
    not empty.  When the call fails the response is "Failed to fetch
    invoices: ..." with status 502. *)
Theorem list_makes_one_call B user_id args env hist :
  exists params rp out,
    run (agent_list_invoices B user_id args) env hist
    = ([(HttpGet (B ++ lit "/api/invoices") (PDict params) 8, rp)], out)
    /\ lookup (lit "q") params
       = match strip (arg (lit "q") args) with
         | [] => None
         | q => Some (PStr q)
         end
    /\ lookup (lit "category") params
       = match strip (arg (lit "category") args) with
         | [] => None
         | c => Some (PStr c)
         end
    /\ lookup (lit "userId") params
       = match user_id with
         | [] => None
         | u => Some (PStr u)
         end
    /\ (forall msg, failure rp = Some msg ->
          out = Val (assistant_err
                       (lit "Failed to fetch invoices: " ++ lit "backend_get error: "
                        ++ msg) 502)).
Proof.
  unfold agent_list_invoices. rewrite run_get_route. cbn zeta. unfold list_params.
  eexists _, _, _. split; [reflexivity|].
  repeat split.
  - destruct (strip (arg (lit "q") args)), (strip (arg (lit "category") args)),
      user_id; reflexivity.
  - destruct (strip (arg (lit "q") args)), (strip (arg (lit "category") args)),
      user_id; reflexivity.
  - destruct (strip (arg (lit "q") args)), (strip (arg (lit "category") args)),
      user_id; reflexivity.
  - intros msg Hm. now apply failed_route.
Qed.

(** When the backend answers with no invoices (an empty list, or no
    list at all), /agent/invoices answers 200 with the speech "You have
    no matching invoices." and no cards. *)
Theorem list_without_invoices B user_id args env hist ans :
  backend_result (lit "backend_get error: ")
    (env hist (HttpGet (B ++ lit "/api/invoices") (list_params user_id args) 8))
  = Val (PDict ans) ->
  invoices_in (PDict ans) = Val (PList []) ->
  snd (run (agent_list_invoices B user_id args) env hist)
  = Val (PDict [(lit "success", PBool true);
                (lit "message",
                 if truthy (dict_get ans (lit "message"))
                 then dict_get ans (lit "message") else PStr (lit "ok"));
                (lit "data", PDict [(lit "raw", PList [])]);
                (lit "speak", PStr (lit "You have no matching invoices."));
                (lit "cards", PList [])], 200).
Proof.
  intros Hr Hi. unfold agent_list_invoices. rewrite run_get_route. cbn zeta.
  cbn [snd]. change REQUEST_TIMEOUT with 8. rewrite Hr. cbn [rbind].
  unfold list_response. rewrite Hi. reflexivity.
Qed.

Lemma list_card_metadata i c : list_card i = Val c -> field (lit "metadata") c = Some i.
Proof.
  unfold list_card. intros H.
  repeat match type of H with
         | rbind ?m _ = Val _ => destruct m; cbn [rbind] in H; try discriminate
         end.
  now injection H as <-.
Qed.

Lemma search_card_metadata i c :
  search_card i = Val c -> field (lit "metadata") c = Some i.
Proof.
  unfold search_card. intros H.
  repeat match type of H with
         | rbind ?m _ = Val _ => destruct m; cbn [rbind] in H; try discriminate
         end.
  now injection H as <-.
Qed.

Lemma mapM_metadata (card : pyval -> res pyval) items cards :
  (forall i c, card i = Val c -> field (lit "metadata") c = Some i) ->
  mapM card items = Val cards ->
  map (field (lit "metadata")) cards = map Some items.
Proof.
  intros Hc. revert cards. induction items as [|i items IH]; intros cards; simpl.
  - now intros [= <-].
  - destruct (card i) as [c| |] eqn:E; cbn [rbind]; try discriminate.
    destruct (mapM card items) as [cs| |]; cbn [rbind]; try discriminate.
    intros [= <-]. simpl. now rewrite (Hc i c E), (IH cs eq_refl).
Qed.

Lemma list_response_cards v body code :
  list_response v = Val (body, code) ->
  exists invoices items cards,
    invoices_in v = Val invoices
    /\ py_iter invoices = Val items
    /\ field (lit "data") body = Some (PDict [(lit "raw", invoices)])
    /\ field (lit "cards") body = Some (PList cards)
    /\ map (field (lit "metadata")) cards = map Some items.
Proof.
  unfold list_response. intros H.
  destruct (invoices_in v) as [invoices| |] eqn:Ei; cbn [rbind] in H;
    try discriminate.
  match type of H with
  | rbind ?m _ = _ => destruct m as [speak| |]; cbn [rbind] in H; try discriminate
  end.
  destruct (py_iter invoices) as [items| |] eqn:Et; cbn [rbind] in H;
    try discriminate.
  destruct (mapM list_card items) as [cards| |] eqn:Ec; cbn [rbind] in H;
    try discriminate.
  destruct (py_get v _ _) as [m| |]; cbn [rbind] in H; try discriminate.
  injection H as <- <-. exists invoices, items, cards.
  split; [reflexivity|]. split; [exact Et|]. split; [reflexivity|].
  split; [now destruct cards|].
  eapply mapM_metadata; [apply list_card_metadata|exact Ec].
Qed.

Lemma search_response_cards q v body code :
  search_response q v = Val (body, code) ->
  exists invoices items cards,
    invoices_in v = Val invoices
    /\ py_iter invoices = Val items
    /\ field (lit "data") body = Some (PDict [(lit "invoices", invoices)])
    /\ field (lit "cards") body = Some (PList cards)
    /\ map (field (lit "metadata")) cards = map Some items.
Proof.
  unfold search_response. intros H.
  destruct (invoices_in v) as [invoices| |] eqn:Ei; cbn [rbind] in H;
    try discriminate.
  destruct (py_len invoices) as [n| |]; cbn [rbind] in H; try discriminate.
  destruct (py_iter invoices) as [items| |] eqn:Et; cbn [rbind] in H;
    try discriminate.
  destruct (mapM search_card items) as [cards| |] eqn:Ec; cbn [rbind] in H;
    try discriminate.
  destruct (py_get v _ _) as [m| |]; cbn [rbind] in H; try discriminate.
  injection H as <- <-. exists invoices, items, cards.
  split; [reflexivity|]. split; [exact Et|]. split; [reflexivity|].
  split; [now destruct cards|].
  eapply mapM_metadata; [apply search_card_metadata|exact Ec].
Qed.

(** A 200 response of /agent/invoices carries the invoices of the
    backend's answer as [data.raw], and one card for each of them, in
    order, whose [metadata] is the invoice. *)
Theorem list_cards_mirror_invoices B user_id args env hist body :
  snd (run (agent_list_invoices B user_id args) env hist) = Val (body, 200) ->
  exists ans invoices items cards,
    backend_result (lit "backend_get error: ")
      (env hist (HttpGet (B ++ lit "/api/invoices") (list_params user_id args) 8))
    = Val ans
    /\ invoices_in ans = Val invoices
    /\ py_iter invoices = Val items
    /\ field (lit "data") body = Some (PDict [(lit "raw", invoices)])
    /\ field (lit "cards") body = Some (PList cards)
    /\ map (field (lit "metadata")) cards = map Some items.
Proof.
  unfold agent_list_invoices. rewrite run_get_route. cbn zeta. cbn [snd].
  change REQUEST_TIMEOUT with 8.
  destruct (rbind _ _) as [r|e|] eqn:E.
  - intros [= ->]. apply bind_result in E as [ans [Hans Hr]].
    destruct (list_response_cards _ _ _ Hr) as [invoices [items [cards H]]].
    exists ans, invoices, items, cards. tauto.
  - intros H. apply handled_code in H. discriminate.
  - discriminate.
Qed.

(** The same for /agent/search, whose invoices are [data.invoices]. *)
Theorem search_cards_mirror_invoices B args env hist body :
  snd (run (agent_search B args) env hist) = Val (body, 200) ->
  exists ans invoices items cards,
    backend_result (lit "backend_get error: ")
      (env hist (HttpGet (B ++ lit "/api/invoices")
                   (search_params (strip (arg (lit "q") args)) args) 8))
    = Val ans
    /\ invoices_in ans = Val invoices
    /\ py_iter invoices = Val items
    /\ field (lit "data") body = Some (PDict [(lit "invoices", invoices)])
    /\ field (lit "cards") body = Some (PList cards)
    /\ map (field (lit "metadata")) cards = map Some items.
Proof.
  unfold agent_search. cbn zeta.
  destruct (strip (arg (lit "q") args)) as [|c q] eqn:Eq; [discriminate|].
  rewrite run_get_route. cbn zeta. cbn [snd]. change REQUEST_TIMEOUT with 8.
  destruct (rbind _ _) as [r|e|] eqn:E.
  - intros [= ->]. apply bind_result in E as [ans [Hans Hr]].
    destruct (search_response_cards _ _ _ _ Hr) as [invoices [items [cards H]]].
    exists ans, invoices, items, cards. tauto.
  - intros H. apply handled_code in H. discriminate.
  - discriminate.
Qed.

(** ** The resolver, further *)

Lemma first_match_In cond l inv :
  first_match cond l = Val (Some inv) -> In inv l /\ cond inv = Val true.
Proof.
  induction l as [|c l IH]; simpl; [discriminate|].
  destruct (cond c) as [[|]| |] eqn:E; cbn [rbind]; try discriminate.
  - intros [= <-]. split; [now left|exact E].
  - intros H. destruct (IH H). split; [now right|assumption].
Qed.

Lemma filterM_In keep l np x :
  filterM keep l = Val np -> In x np -> In x l /\ keep x = Val true.
Proof.
  revert np. induction l as [|c l IH]; intros np; simpl.
  - intros [= <-] [].
  - destruct (keep c) as [b| |] eqn:E; cbn [rbind]; try discriminate.
    destruct (filterM keep l) as [r| |]; cbn [rbind]; try discriminate.
    intros [= <-] Hx. destruct b.
    + destruct Hx as [<-|Hx]; [split; [now left|exact E]|].
      destruct (IH r eq_refl Hx). split; [now right|assumption].
    + destruct (IH r eq_refl Hx). split; [now right|assumption].
Qed.

Lemma In_combine_snd {A B} (ks : list A) (l : list B) y :
  In y (map snd (combine ks l)) -> In y l.
Proof.
  intros H. apply in_map_iff in H as [[k x] [<- H]]. now apply in_combine_r in H.
Qed.

Lemma py_sorted_In key reverse l l' x :
  py_sorted key reverse l = Val l' -> In x l' -> In x l.
Proof.
  unfold py_sorted. destruct (mapM key l) as [ks| |]; cbn [rbind]; try discriminate.
  destruct ks as [|k0 [|k1 ks]]; try (now intros [= <-]).
  destruct (forallb _ _); [|discriminate].
  intros H Hx.
  assert (Hs : l' = map snd (sort_decorated skey_ltb reverse
                               (combine (k0 :: k1 :: ks) l)))
    by (destruct k0; congruence).
  subst l'. apply (In_combine_snd (k0 :: k1 :: ks)).
  apply in_map_iff in Hx as [y [<- Hy]]. apply in_map.
  unfold sort_decorated in Hy. destruct reverse.
  - apply in_rev in Hy. apply In_stable_sort in Hy. now apply in_rev in Hy.
  - now apply In_stable_sort in Hy.
Qed.

Lemma first_item_In l x : first_item l = Val x -> In x l.
Proof. destruct l; [discriminate|]. intros [= <-]. now left. Qed.

Lemma tier4_result s l r :
  tier4 s (PList l) = Val r ->
  r = PNone \/ (In r l /\ is_unpaid r = Val true).
Proof.
  unfold tier4. cbn [py_iter rbind].
  destruct (filterM is_unpaid l) as [np| |] eqn:Ef; cbn [rbind]; try discriminate.
  destruct np as [|c np]; [intros [= <-]; now left|].
  assert (Hpick : forall key reverse,
            (l' <- py_sorted key reverse (c :: np) ;; first_item l') = Val r ->
            In r l /\ is_unpaid r = Val true).
  { intros key reverse H.
    destruct (py_sorted key reverse (c :: np)) as [l'| |] eqn:Es; cbn [rbind] in H;
      try discriminate.
    apply first_item_In in H. apply (py_sorted_In _ _ _ _ _ Es) in H.
    now apply (filterM_In _ _ _ _ Ef). }
  repeat match goal with
         | |- (if ?b then _ else _) = _ -> _ => destruct b
         end;
    try (intros H; right; now apply Hpick in H).
  intros [= <-]. now left.
Qed.

(** The resolver makes no invoice up: what it returns is [None] or one
    of the candidates. *)
Theorem resolver_returns_a_candidate ref l r :
  find_invoice_by_spoken_local ref (PList l) = Val r ->
  r = PNone \/ In r l.
Proof.
  unfold find_invoice_by_spoken_local.
  destruct (negb (truthy ref)); [intros [= <-]; now left|].
  destruct (normalize ref) as [s| |]; cbn [rbind]; try discriminate.
  assert (Hloop : forall cond o,
            (items <- py_iter (PList l) ;; first_match cond items) = Val (Some o) ->
            In o l).
  { intros cond o H. cbn [py_iter rbind] in H. now apply first_match_In in H. }
  destruct (tier1 s (PList l)) as [[inv|]| |] eqn:E1; cbn [rbind]; try discriminate.
  { intros [= <-]. right. unfold tier1 in E1.
    destruct (re_search match_inv s); [|discriminate]. now apply Hloop in E1. }
  destruct (tier2 s (PList l)) as [[inv|]| |] eqn:E2; cbn [rbind]; try discriminate.
  { intros [= <-]. right. unfold tier2 in E2.
    destruct (re_search digits_2_6 s); [|discriminate]. now apply Hloop in E2. }
  destruct (tier3 s (PList l)) as [[inv|]| |] eqn:E3; cbn [rbind]; try discriminate.
  { intros [= <-]. right. unfold tier3 in E3. now apply Hloop in E3. }
  intros H. apply tier4_result in H. tauto.
Qed.

(** A reference that misses tiers 1 to 3 never resolves to a paid
    invoice: what the keyword tier returns passes the test
    [not i.get('paid')]. *)
Theorem keyword_tier_skips_paid ref s l r :
  truthy ref = true ->
  normalize ref = Val s ->
  tier1 s (PList l) = Val None ->
  tier2 s (PList l) = Val None ->
  tier3 s (PList l) = Val None ->
  find_invoice_by_spoken_local ref (PList l) = Val r ->
  r <> PNone ->
  In r l /\ paid_flag r = false.
Proof.
  intros Ht Hn H1 H2 H3. unfold find_invoice_by_spoken_local.
  rewrite Ht, Hn. cbn [negb rbind]. rewrite H1, H2, H3. cbn [rbind].
  intros H Hr. apply tier4_result in H as [->|[Hin Hu]]; [contradiction|].
  split; [exact Hin|].
  unfold is_unpaid, paid_flag, field in *.
  destruct r as [| | | | | |d]; try discriminate. cbn [py_get rbind] in Hu.
  destruct (lookup (lit "paid") d) as [v|]; [|reflexivity].
  injection Hu as Hu. now apply negb_true_iff in Hu.
Qed.

(** ** Both ends of the stable sort *)

Section EndsOfSorted.
Context {A : Type}.
Variable ltb : skey -> skey -> bool.
Variable dom : skey -> Prop.
Hypothesis ltb_asym : forall a b, dom a -> dom b -> ltb a b = true -> ltb b a = false.
Hypothesis ltb_cotrans : forall a b c, dom a -> dom b -> dom c ->
  ltb a c = true -> ltb a b = true \/ ltb b c = true.

Lemma hd_insert (x d : skey * A) (l : list (skey * A)) :
  hd d (insert ltb x l) =
  match l with
  | [] => x
  | y :: _ => if ltb (fst y) (fst x) then y else x
  end.
Proof. destruct l as [|y l]; [reflexivity|]. simpl. now destruct (ltb _ _). Qed.

Lemma stable_sort_not_nil (l : list (skey * A)) : l <> [] -> stable_sort ltb l <> [].
Proof.
  destruct l as [|y l]; [contradiction|]. intros _ E.
  assert (H : In y (stable_sort ltb (y :: l))) by (apply In_stable_sort; now left).
  rewrite E in H. destruct H.
Qed.

Lemma first_stable_sort (l : list (skey * A)) (d : skey * A) :
  l <> [] -> Forall (fun y => dom (fst y)) l ->
  first_pick ltb l (hd d (stable_sort ltb l)).
Proof.
  induction l as [|a l IH]; [contradiction|]. intros _ Hdom.
  inversion Hdom as [|? ? Ha Hl]; subst.
  cbn [stable_sort fold_right]. fold (stable_sort ltb l). rewrite hd_insert.
  destruct l as [|b l'].
  - exists [], []. repeat split; intros y [].
  - pose proof (stable_sort_not_nil (b :: l') ltac:(discriminate)) as Hne.
    destruct (IH ltac:(discriminate) Hl) as [pre [post [Hsplit [Hpre Hpost]]]].
    destruct (stable_sort ltb (b :: l')) as [|h s'] eqn:Es; [contradiction|].
    cbn [hd] in *.
    assert (Hh : In h (b :: l')) by (rewrite Hsplit; apply in_elt).
    assert (Dh : dom (fst h)) by (rewrite Forall_forall in Hl; now apply Hl).
    destruct (ltb (fst h) (fst a)) eqn:Eha.
    + exists (a :: pre), post. split; [now rewrite Hsplit|]. split; [|exact Hpost].
      intros y [<-|Hy]; [exact Eha|now apply Hpre].
    + exists [], (b :: l'). split; [reflexivity|]. split; [intros y []|].
      intros y Hy. destruct (ltb (fst y) (fst a)) eqn:Eya; [|reflexivity]. exfalso.
      assert (Dy : dom (fst y)) by (rewrite Forall_forall in Hl; now apply Hl).
      destruct (ltb_cotrans (fst y) (fst h) (fst a) Dy Dh Ha Eya) as [H|H];
        [|congruence].
      rewrite Hsplit in Hy. apply in_app_or in Hy as [Hin|[<-|Hin]].
      * specialize (Hpre y Hin). rewrite (ltb_asym _ _ Dh Dy Hpre) in H.
        discriminate.
      * rewrite (ltb_asym _ _ Dh Dh H) in H. discriminate.
      * rewrite (Hpost y Hin) in H. discriminate.
Qed.
End EndsOfSorted.

(** ** [sorted(...)[0]] for keys of one class *)

Section SortedBy.
Variable cls : skey -> Prop.
Hypothesis cls_same : forall a b, cls a -> cls b -> same_class a b = true.
Hypothesis cls_ordered : forall a, cls a -> a <> SList.
Hypothesis cls_asym :
  forall a b, cls a -> cls b -> skey_ltb a b = true -> skey_ltb b a = false.
Hypothesis cls_cotrans : forall a b c, cls a -> cls b -> cls c ->
  skey_ltb a c = true -> skey_ltb a b = true \/ skey_ltb b c = true.

Variable key : pyval -> res skey.
Variable kf : pyval -> skey.

Lemma sorted_decorated (reverse : bool) (np : list pyval) :
  (2 <= length np)%nat ->
  (forall c, In c np -> key c = Val (kf c) /\ cls (kf c)) ->
  py_sorted key reverse np
  = Val (map snd (sort_decorated skey_ltb reverse (map (fun c => (kf c, c)) np))).
Proof.
  intros Hlen Hk. unfold py_sorted.
  rewrite (mapM_map key kf np)
    by (apply Forall_forall; intros c Hc; now apply Hk).
  cbn [rbind]. destruct np as [|c1 [|c2 np']]; try (simpl in Hlen; lia).
  set (np := c1 :: c2 :: np') in *.
  change (map kf np) with (kf c1 :: kf c2 :: map kf np'). cbv beta iota.
  change (kf c1 :: kf c2 :: map kf np') with (map kf np).
  assert (Hcls : forallb (same_class (kf c1)) (map kf np) = true).
  { apply forallb_forall. intros k Hin. apply in_map_iff in Hin as [c [<- Hc]].
    apply cls_same; [apply Hk; now left|now apply Hk]. }
  rewrite Hcls, combine_map_self.
  pose proof (cls_ordered (kf c1) (proj2 (Hk c1 (or_introl eq_refl)))) as Hno.
  destruct (kf c1); try reflexivity. contradiction.
Qed.

Lemma decorated_shape (np : list pyval) (y : skey * pyval) :
  In y (map (fun c => (kf c, c)) np) -> fst y = kf (snd y) /\ In (snd y) np.
Proof. intros H. apply in_map_iff in H as [c [<- Hc]]. now split. Qed.

(** The first item of the descending sort: the first of the items with
    the greatest key. *)
Lemma sorted_first_max (np : list pyval) :
  np <> [] ->
  (forall c, In c np -> key c = Val (kf c) /\ cls (kf c)) ->
  exists pre r post,
    np = pre ++ r :: post
    /\ (forall y, In y pre -> skey_ltb (kf y) (kf r) = true)
    /\ (forall y, In y post -> skey_ltb (kf r) (kf y) = false)
    /\ (l <- py_sorted key true np ;; first_item l) = Val r.
Proof.
  intros Hne Hk. destruct np as [|c1 [|c2 np']]; [contradiction| |].
  - exists [], c1, []. repeat split; try (intros y []).
    unfold py_sorted. cbn [mapM]. rewrite (proj1 (Hk c1 (or_introl eq_refl))).
    reflexivity.
  - set (np := c1 :: c2 :: np') in *.
    rewrite (sorted_decorated true np) by (try exact Hk; simpl; lia).
    cbn [rbind sort_decorated].
    set (dl := map (fun c => (kf c, c)) np).
    assert (Hdl : rev dl <> []).
    { intros E. apply (f_equal (@length _)) in E.
      rewrite length_rev in E. discriminate. }
    rewrite (first_of_reversed _ (SOther, PNone)
               (stable_sort_not_nil skey_ltb (rev dl) Hdl)).
    assert (Hdom : Forall (fun y => cls (fst y)) (rev dl)).
    { apply Forall_forall. intros y Hy. apply in_rev in Hy.
      destruct (decorated_shape np y Hy) as [-> Hin]. now apply Hk. }
    destruct (last_stable_sort skey_ltb cls cls_asym cls_cotrans
                (rev dl) (SOther, PNone) Hdl Hdom)
      as [pre' [post' [Hsplit [Hpre Hpost]]]].
    set (x := last (stable_sort skey_ltb (rev dl)) (SOther, PNone)) in *.
    assert (Hdl' : dl = rev post' ++ x :: rev pre').
    { rewrite <- (rev_involutive dl), Hsplit, rev_app_distr. simpl.
      now rewrite <- app_assoc. }
    assert (Hnp : np = map snd dl).
    { unfold dl. rewrite map_map. simpl. now rewrite map_id. }
    assert (Hx : In x dl) by (rewrite Hdl'; apply in_elt).
    exists (map snd (rev post')), (snd x), (map snd (rev pre')).
    split; [now rewrite Hnp, Hdl', map_app|].
    split; [|split; [|reflexivity]].
    + intros y Hy. apply in_map_iff in Hy as [y' [<- Hy']].
      apply in_rev in Hy'. specialize (Hpost y' Hy').
      assert (Hin : In y' dl)
        by (rewrite Hdl'; apply in_or_app; left; now apply in_rev in Hy').
      now rewrite (proj1 (decorated_shape np y' Hin)),
        (proj1 (decorated_shape np x Hx)) in Hpost.
    + intros y Hy. apply in_map_iff in Hy as [y' [<- Hy']].
      apply in_rev in Hy'. specialize (Hpre y' Hy').
      assert (Hin : In y' dl)
        by (rewrite Hdl'; apply in_or_app; right; right; now apply in_rev in Hy').
      now rewrite (proj1 (decorated_shape np y' Hin)),
        (proj1 (decorated_shape np x Hx)) in Hpre.
Qed.

(** The first item of the ascending sort: the first of the items with
    the least key. *)
Lemma sorted_first_min (np : list pyval) :
  np <> [] ->
  (forall c, In c np -> key c = Val (kf c) /\ cls (kf c)) ->
  exists pre r post,
    np = pre ++ r :: post
    /\ (forall y, In y pre -> skey_ltb (kf r) (kf y) = true)
    /\ (forall y, In y post -> skey_ltb (kf y) (kf r) = false)
    /\ (l <- py_sorted key false np ;; first_item l) = Val r.
Proof.
  intros Hne Hk. destruct np as [|c1 [|c2 np']]; [contradiction| |].
  - exists [], c1, []. repeat split; try (intros y []).
    unfold py_sorted. cbn [mapM]. rewrite (proj1 (Hk c1 (or_introl eq_refl))).
    reflexivity.
  - set (np := c1 :: c2 :: np') in *.
    rewrite (sorted_decorated false np) by (try exact Hk; simpl; lia).
    cbn [rbind sort_decorated].
    set (dl := map (fun c => (kf c, c)) np).
    assert (Hdl : dl <> []) by discriminate.
    assert (Hdom : Forall (fun y => cls (fst y)) dl).
    { apply Forall_forall. intros y Hy.
      destruct (decorated_shape np y Hy) as [-> Hin]. now apply Hk. }
    destruct (first_stable_sort skey_ltb cls cls_asym cls_cotrans
                dl (SOther, PNone) Hdl Hdom)
      as [pre [post [Hsplit [Hpre Hpost]]]].
    pose proof (stable_sort_not_nil skey_ltb dl Hdl) as Hs.
    set (x := hd (SOther, PNone) (stable_sort skey_ltb dl)) in *.
    assert (Hhd : first_item (map snd (stable_sort skey_ltb dl)) = Val (snd x)).
    { unfold x. destruct (stable_sort skey_ltb dl); [contradiction|reflexivity]. }
    assert (Hnp : np = map snd dl).
    { unfold dl. rewrite map_map. simpl. now rewrite map_id. }
    assert (Hx : In x dl) by (rewrite Hsplit; apply in_elt).
    exists (map snd pre), (snd x), (map snd post).
    split; [now rewrite Hnp, Hsplit, map_app|].
    split; [|split; [|exact Hhd]].
    + intros y Hy. apply in_map_iff in Hy as [y' [<- Hy']].
      specialize (Hpre y' Hy').
      assert (Hin : In y' dl) by (rewrite Hsplit; apply in_or_app; now left).
      now rewrite (proj1 (decorated_shape np y' Hin)),
        (proj1 (decorated_shape np x Hx)) in Hpre.
    + intros y Hy. apply in_map_iff in Hy as [y' [<- Hy']].
      specialize (Hpost y' Hy').
      assert (Hin : In y' dl)
        by (rewrite Hsplit; apply in_or_app; right; now right).
      now rewrite (proj1 (decorated_shape np y' Hin)),
        (proj1 (decorated_shape np x Hx)) in Hpost.
Qed.
End SortedBy.

(** ** The order of the due dates *)

Lemma lex_ltb_asym (a b : list Z) : lex_ltb a b = true -> lex_ltb b a = false.
Proof.
  revert b. induction a as [|x a IH]; intros [|y b]; simpl; try discriminate.
  intros H. apply orb_true_iff in H as [H|H].
  - apply Z.ltb_lt in H.
    destruct (Z.ltb_spec y x), (Z.eqb_spec y x); simpl; try reflexivity; lia.
  - apply andb_true_iff in H as [H1 H2]. apply Z.eqb_eq in H1. subst y.
    rewrite Z.ltb_irrefl, Z.eqb_refl. simpl. now apply IH.
Qed.

Lemma lex_ltb_cotrans (a b c : list Z) :
  length a = length b -> length b = length c ->
  lex_ltb a c = true -> lex_ltb a b = true \/ lex_ltb b c = true.
Proof.
  revert b c. induction a as [|x a IH]; intros [|y b] [|z c]; simpl;
    try discriminate.
  intros Hab Hbc H. injection Hab as Hab. injection Hbc as Hbc.
  apply orb_true_iff in H as [H|H].
  - apply Z.ltb_lt in H.
    destruct (Z.ltb_spec x y); [now left|].
    destruct (Z.ltb_spec y z); [now right|]. lia.
  - apply andb_true_iff in H as [H1 H2]. apply Z.eqb_eq in H1. subst z.
    destruct (Z.ltb_spec x y); [now left|].
    destruct (Z.ltb_spec y x); [now right|].
    assert (x = y) by lia. subst y. rewrite Z.eqb_refl. simpl.
    now apply IH.
Qed.

Lemma date_ltb_asym (a b : skey) :
  is_date_key a -> is_date_key b -> skey_ltb a b = true -> skey_ltb b a = false.
Proof. intros [x ->] [y ->]; simpl. apply lex_ltb_asym. Qed.

Lemma date_ltb_cotrans (a b c : skey) :
  is_date_key a -> is_date_key b -> is_date_key c ->
  skey_ltb a c = true -> skey_ltb a b = true \/ skey_ltb b c = true.
Proof. intros [x ->] [y ->] [z ->]; simpl. now apply lex_ltb_cotrans. Qed.

Lemma date_same_class (a b : skey) :
  is_date_key a -> is_date_key b -> same_class a b = true.
Proof. now intros [x ->] [y ->]. Qed.

Lemma date_ordered (a : skey) : is_date_key a -> a <> SList.
Proof. now intros [x ->]. Qed.

Lemma num_same_class (a b : skey) :
  is_num_key a -> is_num_key b -> same_class a b = true.
Proof. now intros [x ->] [y ->]. Qed.

Lemma num_ordered (a : skey) : is_num_key a -> a <> SList.
Proof. now intros [x ->]. Qed.

Lemma dueDate_key_due (c : pyval) :
  due_of c <> None -> dueDate_key c = Val (SDate (due c)) /\ is_date_key (SDate (due c)).
Proof.
  unfold due, due_of, dueDate_key, field, py_getitem.
  destruct c as [| | | | | |d]; try congruence.
  destruct (lookup (lit "dueDate") d) as [v|]; [|congruence]. cbn [rbind].
  destruct (fromisoformat v) as [t| |]; try congruence. intros _.
  split; [reflexivity|now exists t].
Qed.

Lemma amount_key_amount (c : pyval) :
  amount_of c <> None ->
  amount_key c = Val (SNum (amount c)) /\ is_num_key (SNum (amount c)).
Proof. intros H. split; [now apply amount_key_num|now eexists]. Qed.

Lemma tier4_unpaid (s : pystr) (l : list pyval) :
  Forall (fun c => is_invoice c = true) l ->
  tier4 s (PList l) =
  match unpaid l with
  | [] => Val PNone
  | _ :: _ =>
      if names_latest s then
        l' <- py_sorted dueDate_key true (unpaid l) ;; first_item l'
      else if names_oldest s then
        l' <- py_sorted dueDate_key false (unpaid l) ;; first_item l'
      else if names_largest s then
        l' <- py_sorted amount_key true (unpaid l) ;; first_item l'
      else if names_smallest s then
        l' <- py_sorted amount_key false (unpaid l) ;; first_item l'
      else Val PNone
  end.
Proof.
  intros Hl. unfold tier4. cbn [py_iter rbind].
  rewrite (filterM_filter is_unpaid (fun c => negb (paid_flag c)) l)
    by (eapply Forall_impl; [|exact Hl]; intros c Hc; now apply is_unpaid_flag).
  cbn [rbind]. fold (unpaid l). reflexivity.
Qed.

Lemma resolver_keyword_tier ref s l :
  truthy ref = true ->
  normalize ref = Val s ->
  tier1 s (PList l) = Val None ->
  tier2 s (PList l) = Val None ->
  tier3 s (PList l) = Val None ->
  find_invoice_by_spoken_local ref (PList l) = tier4 s (PList l).
Proof.
  intros Ht Hn H1 H2 H3. unfold find_invoice_by_spoken_local.
  rewrite Ht, Hn. cbn [negb rbind]. now rewrite H1, H2, H3.
Qed.

(** For a reference that misses tiers 1 to 3, names the smallest
    ('smallest' or 'small') and holds none of the keywords tried before
    (those of the dates and of the largest): the result is the unpaid
    candidate of minimum amount, the earliest one in input order among
    equals. *)
Theorem smallest_unpaid_first (ref : pyval) (s : pystr) (l : list pyval) :
  truthy ref = true ->
  normalize ref = Val s ->
  Forall (fun c => is_invoice c = true) l ->
  tier1 s (PList l) = Val None ->
  tier2 s (PList l) = Val None ->
  tier3 s (PList l) = Val None ->
  names_smallest s = true ->
  names_a_date s = false ->
  names_largest s = false ->
  unpaid l <> [] ->
  (forall c, In c (unpaid l) -> amount_of c <> None) ->
  exists pre r post,
    unpaid l = pre ++ r :: post
    /\ (forall y, In y pre -> (amount r < amount y)%Q)
    /\ (forall y, In y post -> (amount r <= amount y)%Q)
    /\ find_invoice_by_spoken_local ref (PList l) = Val r.
Proof.
  intros Ht Hn Hl H1 H2 H3 Hsmall Hdate Hbig Hne Ham.
  rewrite (resolver_keyword_tier ref s l Ht Hn H1 H2 H3), (tier4_unpaid s l Hl).
  assert (E1 : names_latest s = false /\ names_oldest s = false).
  { unfold names_a_date, names_latest, names_oldest in *.
    destruct (contains (lit "last") s), (contains (lit "latest") s),
      (contains (lit "most recent") s), (contains (lit "oldest") s),
      (contains (lit "earliest") s); try discriminate; now split. }
  destruct E1 as [-> ->]. rewrite Hbig, Hsmall.
  destruct (sorted_first_min is_num_key num_same_class num_ordered
              num_ltb_asym num_ltb_cotrans amount_key (fun c => SNum (amount c))
              (unpaid l) Hne (fun c Hc => amount_key_amount c (Ham c Hc)))
    as [pre [r [post [Hs [Hpre [Hpost Hr]]]]]].
  exists pre, r, post. split; [exact Hs|].
  split; [|split].
  - intros y Hy. apply Qltb_lt. exact (Hpre y Hy).
  - intros y Hy. apply Qltb_ge. exact (Hpost y Hy).
  - destruct (unpaid l); [contradiction|exact Hr].
Qed.

(** For a reference that misses tiers 1 to 3 and names the latest
    ('last', 'latest' or 'most recent'): the result is the unpaid
    candidate with the latest due date, the earliest one in input order
    among equals; the due dates are read in the two plain ISO formats. *)
Theorem latest_unpaid_first (ref : pyval) (s : pystr) (l : list pyval) :
  truthy ref = true ->
  normalize ref = Val s ->
  Forall (fun c => is_invoice c = true) l ->
  tier1 s (PList l) = Val None ->
  tier2 s (PList l) = Val None ->
  tier3 s (PList l) = Val None ->
  names_latest s = true ->
  unpaid l <> [] ->
  (forall c, In c (unpaid l) -> due_of c <> None) ->
  exists pre r post,
    unpaid l = pre ++ r :: post
    /\ (forall y, In y pre -> dt_ltb (due y) (due r) = true)
    /\ (forall y, In y post -> dt_ltb (due r) (due y) = false)
    /\ find_invoice_by_spoken_local ref (PList l) = Val r.
Proof.
  intros Ht Hn Hl H1 H2 H3 Hlate Hne Hdue.
  rewrite (resolver_keyword_tier ref s l Ht Hn H1 H2 H3), (tier4_unpaid s l Hl).
  rewrite Hlate.
  destruct (sorted_first_max is_date_key date_same_class date_ordered
              date_ltb_asym date_ltb_cotrans dueDate_key (fun c => SDate (due c))
              (unpaid l) Hne (fun c Hc => dueDate_key_due c (Hdue c Hc)))
    as [pre [r [post [Hs [Hpre [Hpost Hr]]]]]].
  exists pre, r, post. repeat split; try assumption.
  destruct (unpaid l); [contradiction|exact Hr].
Qed.

(** For a reference that misses tiers 1 to 3, names the oldest
    ('oldest' or 'earliest') and none of 'last', 'latest', 'most
    recent': the result is the unpaid candidate with the earliest due
    date, the earliest one in input order among equals. *)
Theorem oldest_unpaid_first (ref : pyval) (s : pystr) (l : list pyval) :
  truthy ref = true ->
  normalize ref = Val s ->
  Forall (fun c => is_invoice c = true) l ->
  tier1 s (PList l) = Val None ->
  tier2 s (PList l) = Val None ->
  tier3 s (PList l) = Val None ->
  names_latest s = false ->
  names_oldest s = true ->
  unpaid l <> [] ->
  (forall c, In c (unpaid l) -> due_of c <> None) ->
  exists pre r post,
    unpaid l = pre ++ r :: post
    /\ (forall y, In y pre -> dt_ltb (due r) (due y) = true)
    /\ (forall y, In y post -> dt_ltb (due y) (due r) = false)
    /\ find_invoice_by_spoken_local ref (PList l) = Val r.
Proof.
  intros Ht Hn Hl H1 H2 H3 Hlate Hold Hne Hdue.
  rewrite (resolver_keyword_tier ref s l Ht Hn H1 H2 H3), (tier4_unpaid s l Hl).
  rewrite Hlate, Hold.
  destruct (sorted_first_min is_date_key date_same_class date_ordered
              date_ltb_asym date_ltb_cotrans dueDate_key (fun c => SDate (due c))
              (unpaid l) Hne (fun c Hc => dueDate_key_due c (Hdue c Hc)))
    as [pre [r [post [Hs [Hpre [Hpost Hr]]]]]].
  exists pre, r, post. repeat split; try assumption.
  destruct (unpaid l); [contradiction|exact Hr].
Qed.

(** A reference that misses tiers 1 to 3 and holds none of the keywords
    of tier 4 resolves to no invoice. *)
Theorem unrecognized_reference_no_match (ref : pyval) (s : pystr) (l : list pyval) :
  truthy ref = true ->
  normalize ref = Val s ->
  Forall (fun c => is_invoice c = true) l ->
  tier1 s (PList l) = Val None ->
  tier2 s (PList l) = Val None ->
  tier3 s (PList l) = Val None ->
  names_latest s = false ->
  names_oldest s = false ->
  names_largest s = false ->
  names_smallest s = false ->
  find_invoice_by_spoken_local ref (PList l) = Val PNone.
Proof.
  intros Ht Hn Hl H1 H2 H3 Ha Hb Hc Hd.
  rewrite (resolver_keyword_tier ref s l Ht Hn H1 H2 H3), (tier4_unpaid s l Hl).
  rewrite Ha, Hb, Hc, Hd. now destruct (unpaid l).
Qed.

(** ** Tier 3: the reference inside a name *)

Lemma re_search_none (p : pystr -> option pystr) (s : pystr) :
  re_search p s = None -> forall n, p (skipn n s) = None.
Proof.
  induction s as [|c s IH]; simpl.
  - destruct (p []) eqn:E; [discriminate|]. intros _ [|n]; exact E.
  - destruct (p (c :: s)) eqn:E; [discriminate|]. intros H [|n]; [exact E|].
    simpl. now apply IH.
Qed.

Lemma re_search_some_at (p : pystr -> option pystr) (s g : pystr) :
  re_search p s = Some g -> exists n, p (skipn n s) = Some g.
Proof.
  induction s as [|c s IH]; simpl.
  - destruct (p []) eqn:E; [|discriminate]. intros H. exists 0%nat. simpl. congruence.
  - destruct (p (c :: s)) eqn:E.
    + intros H. exists 0%nat. simpl. congruence.
    + intros H. destruct (IH H) as [n Hn]. now exists (S n).
Qed.

Lemma match_inv_digits (t g : pystr) :
  match_inv t = Some g -> exists n, digits_2_6 (skipn n t) = Some g.
Proof.
  unfold match_inv. intros H.
  repeat match type of H with
         | context [match ?x with _ => _ end] => destruct x eqn:?
         end;
    try discriminate;
    solve [ exists 4%nat; cbn [skipn]; congruence
          | exists 3%nat; cbn [skipn]; congruence ].
Qed.

Lemma no_digits_no_inv (s : pystr) :
  re_search digits_2_6 s = None -> re_search match_inv s = None.
Proof.
  intros H. destruct (re_search match_inv s) as [g|] eqn:E; [|reflexivity].
  apply re_search_some_at in E as [m Hm].
  apply match_inv_digits in Hm as [n Hn].
  rewrite skipn_skipn in Hn.
  now rewrite (re_search_none _ _ H) in Hn.
Qed.

Lemma lower_chars_text (t : pystr) :
  is_text (PStr t) = true -> exists u, lower_chars t = Val u.
Proof.
  induction t as [|c t IH]; cbn [is_text forallb lower_chars].
  - now exists [].
  - destruct (lower_char c) as [c'|]; [|discriminate]. cbn [andb].
    intros H. destruct (IH H) as [u ->]. now exists (c' :: u).
Qed.

Lemma field_has_text (s k : pystr) (d : list (pystr * pyval)) :
  opt_field is_text k d = true ->
  field_has s k (PDict d) = Val (contains s (lower_text (field k (PDict d)))).
Proof.
  unfold opt_field, field_has, field, py_get, lower_text.
  destruct (lookup k d) as [v|]; cbn [rbind].
  - destruct v; cbn [is_text]; try discriminate.
    intros H. destruct (lower_chars_text _ H) as [u Hu].
    cbn [py_lower]. now rewrite Hu.
  - reflexivity.
Qed.

Lemma tier3_cond_matches (s : pystr) (c : pyval) :
  is_invoice c = true -> tier3_cond s c = Val (tier3_matches s c).
Proof.
  destruct c as [| | | | | |d]; try discriminate.
  unfold is_invoice. rewrite !andb_true_iff.
  intros [[[[[[[_ _] Hv] Hl] Hd] _] _] _].
  unfold tier3_cond, tier3_matches.
  rewrite !field_has_text by assumption. cbn [rbind].
  destruct (contains s (lower_text (field (lit "vendor") (PDict d)))); [reflexivity|].
  cbn [rbind orb].
  destruct (contains s (lower_text (field (lit "label") (PDict d)))); reflexivity.
Qed.

Lemma tier3_find (s : pystr) (l : list pyval) :
  Forall (fun c => is_invoice c = true) l ->
  tier3 s (PList l) = Val (find (tier3_matches s) l).
Proof.
  unfold tier3. cbn [py_iter rbind].
  induction 1 as [|c l Hc _ IH]; [reflexivity|].
  cbn [first_match find]. rewrite (tier3_cond_matches s c Hc). cbn [rbind].
  destruct (tier3_matches s c); [reflexivity|exact IH].
Qed.

(** A reference without a run of two digits resolves by name: the result
    is the first candidate whose vendor, label or description, in lower
    case, holds the normalised reference, whether it is paid or not. *)
Theorem name_match_first (ref : pyval) (s : pystr) (l : list pyval) (c : pyval) :
  truthy ref = true ->
  normalize ref = Val s ->
  Forall (fun c => is_invoice c = true) l ->
  re_search digits_2_6 s = None ->
  find (tier3_matches s) l = Some c ->
  find_invoice_by_spoken_local ref (PList l) = Val c.
Proof.
  intros Ht Hn Hl Hd Hf. unfold find_invoice_by_spoken_local.
  rewrite Ht, Hn. cbn [negb rbind].
  unfold tier1, tier2. rewrite (no_digits_no_inv s Hd), Hd. cbn [rbind].
  rewrite (tier3_find s l Hl), Hf. reflexivity.
Qed.
